(** * SO_GAAL: Single-Objective Generative Adversarial Active Learning

    A shallow embedding of [pyod/models/so_gaal.py] and the properties of
    its training protocol.

    The numeric library (Keras, NumPy), the input validation of
    scikit-learn and the hooks of [BaseDetector] are collaborators of the
    module: they appear here as the operations of a [Backend], with the
    shape contracts the module relies on.  Everything the module itself
    does -- the layers it asks for, the epoch and batch loops, the slices
    of [X] it reads, the label vectors it builds, the order of its calls,
    the attributes it sets, what it returns -- is written out.

    The instance [self] and the random source are mutable; [fit] threads
    them through a state-and-exception monad, together with the trace of
    the calls made to the collaborators. *)

From stdpp Require Import gmap strings list.
From Stdlib Require Import ZArith QArith Lia.
Close Scope Q_scope.

(** ** Python values used by the module *)

(** The exceptions the modelled code can raise. *)
Inductive exn :=
  | ValueError          (* check_array rejects its input *)
  | NotFittedError      (* check_is_fitted *)
  | ZeroDivisionError   (* data_size / batch_size *)
  | AttributeError.     (* reading an attribute that was never set *)

(** What a call of a method evaluates to: [fit] ends in [return self] or
    falls off its end, which is [None] in Python. *)
Inductive pyobj :=
  | Self
  | PyNone.

(** How a method body ends: normally with a value, or in an exception. *)
Inductive result (A : Type) :=
  | Normal (a : A)
  | Raise (e : exn).
Arguments Normal {A} a.
Arguments Raise {A} e.

(** How an iteration of a loop ends: it falls through to the next one,
    with the local variables it leaves, or it executes a [return]. *)
Inductive flow (L R : Type) :=
  | Continue (locals : L)
  | Return (value : R).
Arguments Continue {L R} locals.
Arguments Return {L R} value.

(** [range(n)]: empty when [n <= 0]. *)
Definition range (n : Z) : list nat := seq 0 (Z.to_nat n).

(** [l[a:b]] for [0 <= a], [0 <= b]: the bounds are clipped to the list. *)
Definition slice {A} (a b : nat) (l : list A) : list A :=
  take (b - a) (drop a l).

(** [[v] * n] *)
Definition py_repeat (v : Z) (n : nat) : list Z := replicate n v.

(** [math.ceil(math.sqrt(n))] for a natural number [n], in exact
    arithmetic: the root is taken and rounded up to the next integer when
    it is not exact.  The source computes in double precision,
    [math_ceil_sqrt_double] below; the two agree on every [n] up to 2^52
    ([math_ceil_sqrt_double_exact]), which covers the arrays that can be
    held in memory, and differ at 2^52 + 1
    ([hidden_width_rounds_down_past_2_52]). *)
Definition math_ceil_sqrt (n : nat) : nat :=
  let r := Nat.sqrt n in
  if r * r =? n then r else S r.

(** *** Double precision

    [math.ceil(math.sqrt(n))] as the source computes it, for an integer
    [0 <= n].  The doubles that occur are finite and not negative: an
    integer [v] stands for the double of that value, and a pair [(m, j)]
    for the double [m / 2^j].  A double has 53 significant bits. *)

(** [float(n)], the conversion that [math.sqrt] applies to an integer:
    the nearest double, the even one of two that are as near; [None] is
    the [OverflowError] for an integer that rounds to 2^1024 or more. *)
Definition float_of_int (n : Z) : option Z :=
  if (n <? 2 ^ 53)%Z then Some n
  else
    let shift := (Z.log2 n - 52)%Z in
    let q := (n / 2 ^ shift)%Z in
    let r := (n mod 2 ^ shift)%Z in
    let half := (2 ^ (shift - 1))%Z in
    let q' :=
      if (half <? r)%Z || ((r =? half)%Z && Z.odd q) then (q + 1)%Z else q in
    let v := (q' * 2 ^ shift)%Z in
    if (v <? 2 ^ 1024)%Z then Some v else None.

(** [math.sqrt(v)] for the double [v]: the double nearest to the square
    root.  With [2^e <= sqrt v < 2^(e+1)] the doubles around the root are
    the multiples of [2^(e-52)]; the root is one of them or is nearer to
    one of its two neighbours than to the other (the root of a double is
    never half way between two doubles), so the nearest multiple is the
    integer nearest to [sqrt v * 2^(52-e)], times [2^(e-52)]. *)
Definition math_sqrt (v : Z) : Z * Z :=
  if (v =? 0)%Z then (0, 0)%Z
  else
    let e := (Z.log2 v / 2)%Z in
    let j := (52 - e)%Z in
    if (0 <=? j)%Z then
      let N := (v * 4 ^ j)%Z in
      let s := Z.sqrt N in
      (if (N - s * s <=? s)%Z then s else (s + 1)%Z, j)
    else
      let u := Z.sqrt (4 * v / 4 ^ (- j)) in
      (((u + 1) / 2)%Z, j).

(** [math.ceil(x)] for the double [x = m / 2^j]: an integer. *)
Definition math_ceil (x : Z * Z) : Z :=
  let '(m, j) := x in
  if (0 <=? j)%Z then ((m + 2 ^ j - 1) / 2 ^ j)%Z else (m * 2 ^ (- j))%Z.

(** [math.ceil(math.sqrt(n))] *)
Definition math_ceil_sqrt_double (n : Z) : option Z :=
  math_ceil ∘ math_sqrt <$> float_of_int n.

(** ** Network descriptions *)

Inductive activation_fn :=
  | relu
  | sigmoid.

(** [keras.initializers] *)
Inductive initializer :=
  | Identity (gain : Q)
  | VarianceScaling (scale : Q) (mode distribution : string) (seed : option Z).

(** [keras.layers.Dense(units, input_dim=..., activation=...,
    kernel_initializer=...)] *)
Record Dense := {
  units : nat;
  input_dim : option nat;
  activation : activation_fn;
  kernel_initializer : initializer
}.

(** [keras.optimizers.SGD(lr=..., decay=..., momentum=...)] *)
Record SGD := {
  lr : Q;
  sgd_decay : Q;
  sgd_momentum : Q
}.

(** The layers of the generator: [gen = Sequential(); gen.add(...);
    gen.add(...)] in [create_generator]. *)
Definition generator_layers (latent_size : nat) : list Dense :=
  [ {| units := latent_size; input_dim := Some latent_size;
       activation := relu; kernel_initializer := Identity 1.0 |};
    {| units := latent_size; input_dim := None;
       activation := relu; kernel_initializer := Identity 1.0 |} ].

(** The layers of the discriminator: [dis = Sequential(); dis.add(...);
    dis.add(...)] in [create_discriminator]. *)
Definition discriminator_layers (latent_size data_size : nat) : list Dense :=
  [ {| units := math_ceil_sqrt data_size; input_dim := Some latent_size;
       activation := relu;
       kernel_initializer := VarianceScaling 1.0 "fan_in" "normal" None |};
    {| units := 1; input_dim := None;
       activation := sigmoid;
       kernel_initializer := VarianceScaling 1.0 "fan_in" "normal" None |} ].

(** Width of the output of a stack of layers: the units of the last one. *)
Definition output_units (layers : list Dense) : nat :=
  default 0 (units <$> last layers).

(** ** The collaborators *)

(** The numeric back end.  [entry] is the type of matrix entries, losses
    and scores (floating point numbers); a matrix is the list of its
    rows.  The operations are those of runs in which the library does its
    work: but for [check_array], they return.  A run in which a call to
    the library raises, after the validation, is not described, and the
    statements below about the exceptions of [fit] are about those of the
    validation. *)
Class Backend := {
  entry : Type;
  (** the mutable state of a Keras model: its weights and, once compiled,
      the state of its optimizer *)
  network : Type;
  (** the state of the optimizer of the combined model, whose weights are
      those of the generator and of the discriminator *)
  combined : Type;
  (** the state of the random sources (NumPy's and the initializers') *)
  rng : Type;
  (** what [_process_decision_scores] derives: [threshold_], [labels_] *)
  derived : Type;

  (** [sklearn.utils.check_array]: the validated array, or [None] for the
      [ValueError] it raises *)
  check_array : list (list entry) → option (list (list entry));
  (** [np.random.uniform(0, 1, (rows, cols))] *)
  random_uniform : nat → nat → rng → list (list entry) * rng;
  (** [Model(Input(shape=(input,)), Sequential(layers)(...))]: fresh
      weights, drawn by the initializers *)
  build : nat → list Dense → rng → network * rng;
  (** [model.compile(optimizer=sgd, loss='binary_crossentropy')] *)
  compile : SGD → network → network;
  (** [Model(latent, discriminator(generator(latent)))] with the
      discriminator not trainable, compiled *)
  compile_combined : SGD → network → network → combined;
  (** [model.predict(x)], for an array [x] whose rows have the width of
      the input of the model; what it is on other arrays stands for
      nothing, a Keras model refuses them *)
  predict : list Dense → network → list (list entry) → list (list entry);
  (** [model.train_on_batch(x, y)]: one optimizer step, and the loss *)
  train_on_batch :
    network → list (list entry) → list Z → network * entry;
  (** [combine_model.train_on_batch(noise, trick)]: one optimizer step
      on the generator, the discriminator being frozen, and the loss *)
  combined_train_on_batch :
    combined → network → network → list (list entry) → list Z →
    combined * network * entry;
  (** [combine_model.evaluate(noise, trick)]: the loss only *)
  combined_evaluate :
    combined → network → network → list (list entry) → list Z → entry;
  (** [BaseDetector._set_n_classes(y)]: the value of [_classes] *)
  set_n_classes : option (list Z) → nat;
  (** [BaseDetector._process_decision_scores()], from [decision_scores_]
      and [contamination] *)
  process_decision_scores : Q → list (list entry) → derived;

  (** [check_array] refuses an array without samples
      ([ensure_min_samples=1]) *)
  check_array_nonempty X X' : check_array X = Some X' → X' ≠ [];
  (** [np.random.uniform] returns the number of rows asked for *)
  random_uniform_rows n m r : length (random_uniform n m r).1 = n;
  (** [predict] returns one row per input row, as wide as the last layer *)
  predict_rows layers net x : length (predict layers net x) = length x;
  predict_cols layers net x :
    Forall (λ row, length row = output_units layers) (predict layers net x)
}.

Abbreviation matrix := (list (list entry)).

(** ** The detector and its state *)

Section SO_GAAL.
Context `{Backend}.

(** A Keras model object: what it was built from, and its mutable state. *)
Record keras_model := {
  model_input : nat;
  model_layers : list Dense;
  model_state : network
}.

(** An instance of the class.  The attributes that [__init__] does not
    set are absent ([None]) until [fit] assigns them.  The generator and
    the discriminator are shared with the combined model: the three
    attributes are views of one store of weights, so the combined model
    keeps only the state of its own optimizer. *)
Record SO_GAAL := {
  contamination : Q;
  stop_epochs : Z;
  lr_d : Q;
  lr_g : Q;
  decay : Q;
  momentum : Q;
  _classes : option nat;
  train_history : option (gmap string (list entry));
  discriminator : option keras_model;
  generator : option keras_model;
  combine_model : option combined;
  decision_scores_ : option matrix;
  processed : option derived
}.

(** Modelled from the spec: [BaseDetector.__init__] is not part of the
    sources; it is taken to store [contamination].  The defaults are those
    of the signature of [SO_GAAL.__init__]. *)
Definition __init__ (stop_epochs : Z) (lr_d lr_g decay momentum contamination : Q)
    : SO_GAAL :=
  {| contamination := contamination; stop_epochs := stop_epochs;
     lr_d := lr_d; lr_g := lr_g; decay := decay; momentum := momentum;
     _classes := None; train_history := None; discriminator := None;
     generator := None; combine_model := None; decision_scores_ := None;
     processed := None |}.

Definition default_SO_GAAL : SO_GAAL :=
  __init__ 20 0.01 0.0001 1e-6 0.9 0.1.

(** Attribute assignment, [self.a = v]. *)
Definition set__classes (v : nat) (s : SO_GAAL) : SO_GAAL :=
  {| contamination := contamination s; stop_epochs := stop_epochs s;
     lr_d := lr_d s; lr_g := lr_g s; decay := decay s; momentum := momentum s;
     _classes := Some v; train_history := train_history s;
     discriminator := discriminator s; generator := generator s;
     combine_model := combine_model s;
     decision_scores_ := decision_scores_ s; processed := processed s |}.

Definition set_train_history (v : gmap string (list entry)) (s : SO_GAAL)
    : SO_GAAL :=
  {| contamination := contamination s; stop_epochs := stop_epochs s;
     lr_d := lr_d s; lr_g := lr_g s; decay := decay s; momentum := momentum s;
     _classes := _classes s; train_history := Some v;
     discriminator := discriminator s; generator := generator s;
     combine_model := combine_model s;
     decision_scores_ := decision_scores_ s; processed := processed s |}.

Definition set_discriminator (v : keras_model) (s : SO_GAAL) : SO_GAAL :=
  {| contamination := contamination s; stop_epochs := stop_epochs s;
     lr_d := lr_d s; lr_g := lr_g s; decay := decay s; momentum := momentum s;
     _classes := _classes s; train_history := train_history s;
     discriminator := Some v; generator := generator s;
     combine_model := combine_model s;
     decision_scores_ := decision_scores_ s; processed := processed s |}.

Definition set_generator (v : keras_model) (s : SO_GAAL) : SO_GAAL :=
  {| contamination := contamination s; stop_epochs := stop_epochs s;
     lr_d := lr_d s; lr_g := lr_g s; decay := decay s; momentum := momentum s;
     _classes := _classes s; train_history := train_history s;
     discriminator := discriminator s; generator := Some v;
     combine_model := combine_model s;
     decision_scores_ := decision_scores_ s; processed := processed s |}.

Definition set_combine_model (v : combined) (s : SO_GAAL) : SO_GAAL :=
  {| contamination := contamination s; stop_epochs := stop_epochs s;
     lr_d := lr_d s; lr_g := lr_g s; decay := decay s; momentum := momentum s;
     _classes := _classes s; train_history := train_history s;
     discriminator := discriminator s; generator := generator s;
     combine_model := Some v;
     decision_scores_ := decision_scores_ s; processed := processed s |}.

Definition set_decision_scores_ (v : matrix) (s : SO_GAAL) : SO_GAAL :=
  {| contamination := contamination s; stop_epochs := stop_epochs s;
     lr_d := lr_d s; lr_g := lr_g s; decay := decay s; momentum := momentum s;
     _classes := _classes s; train_history := train_history s;
     discriminator := discriminator s; generator := generator s;
     combine_model := combine_model s;
     decision_scores_ := Some v; processed := processed s |}.

Definition set_processed (v : derived) (s : SO_GAAL) : SO_GAAL :=
  {| contamination := contamination s; stop_epochs := stop_epochs s;
     lr_d := lr_d s; lr_g := lr_g s; decay := decay s; momentum := momentum s;
     _classes := _classes s; train_history := train_history s;
     discriminator := discriminator s; generator := generator s;
     combine_model := combine_model s;
     decision_scores_ := decision_scores_ s; processed := Some v |}.

(** The calls a run makes to its collaborators, and what it prints, in
    order. *)
Inductive event :=
  | Print_epoch (epoch1 : nat) (epochs : Z)
      (* print('Epoch {} of {}'.format(epoch + 1, epochs)) *)
  | Print_testing (epoch1 index1 : nat)
      (* print('\nTesting for epoch {} index {}:'.format(...)) *)
  | Random_uniform (rows cols : nat)
  | Generator_predict (noise : matrix)
  | Discriminator_train_on_batch (x : matrix) (y : list Z)
  | Combine_train_on_batch (noise : matrix) (trick : list Z)
  | Combine_evaluate (noise : matrix) (trick : list Z)
  | Discriminator_predict (X : matrix)
  | Process_decision_scores.

(** What a run acts on: the instance, the random source, and the trace of
    the events so far. *)
Record world := {
  self : SO_GAAL;
  random : rng;
  trace : list event
}.

(** ** The monad of method bodies *)

(** A computation changes the world and ends normally or in an exception;
    what it did before raising stays done. *)
Definition M (A : Type) : Type := world → result A * world.

#[global] Instance M_ret : MRet M := λ A a w, (Normal a, w).

#[global] Instance M_bind : MBind M := λ A B f m w,
  match m w with
  | (Normal a, w') => f a w'
  | (Raise e, w') => (Raise e, w')
  end.

Definition raise {A} (e : exn) : M A := λ w, (Raise e, w).

Definition get_self : M SO_GAAL := λ w, (Normal (self w), w).

Definition modify_self (f : SO_GAAL → SO_GAAL) : M unit := λ w,
  (Normal (), {| self := f (self w); random := random w; trace := trace w |}).

Definition emit (e : event) : M unit := λ w,
  (Normal (),
   {| self := self w; random := random w; trace := trace w ++ [e] |}).

(** Draw from the random source. *)
Definition draw {A} (f : rng → A * rng) : M A := λ w,
  let '(a, r) := f (random w) in
  (Normal a, {| self := self w; random := r; trace := trace w |}).

(** Reading [self.a]: an [AttributeError] when it was never assigned. *)
Definition attr {A} (a : SO_GAAL → option A) : M A :=
  s ← get_self;
  match a s with
  | Some v => mret v
  | None => raise AttributeError
  end.

(** Loops: [for x in xs: body], the local variables that the body assigns being
    threaded from one iteration to the next; a [return] in the body ends
    the loop. *)
Fixpoint for_in {A L R} (xs : list A) (body : A → L → M (flow L R))
    (locals : L) : M (flow L R) :=
  match xs with
  | [] => mret (Continue locals)
  | x :: xs' =>
      o ← body x locals;
      match o with
      | Continue locals' => for_in xs' body locals'
      | Return v => mret (Return v)
      end
  end.

(** ** Calls to the collaborators *)

(** [X = check_array(X)] *)
Definition check_array_ (X : matrix) : M matrix :=
  match check_array X with
  | Some X' => mret X'
  | None => raise ValueError
  end.

(** Modelled from the spec: [BaseDetector._set_n_classes] is not part of
    the sources; it is the hook called at the start of [fit], taken to
    assign [_classes] and nothing else. *)
Definition _set_n_classes (y : option (list Z)) : M unit :=
  modify_self (set__classes (set_n_classes y)).

(** Modelled from the spec: [BaseDetector._process_decision_scores] is not
    part of the sources; it is the hook that derives [threshold_] and
    [labels_] from [decision_scores_] and the configured contamination,
    and leaves the other attributes as they are. *)
Definition _process_decision_scores : M unit :=
  emit Process_decision_scores;;
  s ← get_self;
  scores ← attr decision_scores_;
  modify_self (set_processed (process_decision_scores (contamination s) scores)).

(** [np.random.uniform(0, 1, (rows, cols))] *)
Definition np_random_uniform (rows cols : nat) : M matrix :=
  emit (Random_uniform rows cols);;
  draw (random_uniform rows cols).

(** [self.generator.predict(noise, verbose=0)] *)
Definition generator_predict (noise : matrix) : M matrix :=
  g ← attr generator;
  emit (Generator_predict noise);;
  mret (predict (model_layers g) (model_state g) noise).

(** [self.discriminator.predict(X)] *)
Definition discriminator_predict (X : matrix) : M matrix :=
  d ← attr discriminator;
  emit (Discriminator_predict X);;
  mret (predict (model_layers d) (model_state d) X).

(** [self.discriminator.train_on_batch(x, y)]: the discriminator object
    is updated in place. *)
Definition discriminator_train_on_batch (x : matrix) (y : list Z) : M entry :=
  d ← attr discriminator;
  emit (Discriminator_train_on_batch x y);;
  let '(net, loss) := train_on_batch (model_state d) x y in
  modify_self (set_discriminator
    {| model_input := model_input d; model_layers := model_layers d;
       model_state := net |});;
  mret loss.

(** [self.combine_model.train_on_batch(noise, trick)]: the optimizer of
    the combined model and the generator are updated in place. *)
Definition combine_train_on_batch (noise : matrix) (trick : list Z) : M entry :=
  c ← attr combine_model;
  g ← attr generator;
  d ← attr discriminator;
  emit (Combine_train_on_batch noise trick);;
  let '(c', net, loss) :=
    combined_train_on_batch c (model_state g) (model_state d) noise trick in
  modify_self (set_combine_model c');;
  modify_self (set_generator
    {| model_input := model_input g; model_layers := model_layers g;
       model_state := net |});;
  mret loss.

(** [self.combine_model.evaluate(noise, trick)] *)
Definition combine_evaluate (noise : matrix) (trick : list Z) : M entry :=
  c ← attr combine_model;
  g ← attr generator;
  d ← attr discriminator;
  emit (Combine_evaluate noise trick);;
  mret (combined_evaluate c (model_state g) (model_state d) noise trick).

(** [self.train_history[key].append(loss)], [train_history] being a
    [defaultdict(list)]. *)
Definition history_append (key : string) (loss : entry) : M unit :=
  h ← attr train_history;
  modify_self (set_train_history (<[key := default [] (h !! key) ++ [loss]]> h)).

(** ** The methods *)

(** [SO_GAAL.create_generator] *)
Definition create_generator (latent_size : nat) : M keras_model :=
  let gen := generator_layers latent_size in
  net ← draw (build latent_size gen);
  mret {| model_input := latent_size; model_layers := gen; model_state := net |}.

(** [SO_GAAL.create_discriminator] *)
Definition create_discriminator (latent_size data_size : nat) : M keras_model :=
  let dis := discriminator_layers latent_size data_size in
  net ← draw (build latent_size dis);
  mret {| model_input := latent_size; model_layers := dis; model_state := net |}.

(** [model.compile(optimizer=sgd, loss='binary_crossentropy')] *)
Definition compile_model (sgd : SGD) (m : keras_model) : keras_model :=
  {| model_input := model_input m; model_layers := model_layers m;
     model_state := compile sgd (model_state m) |}.

(** [X.shape[0]] and [X.shape[1]] *)
Definition shape0 (X : matrix) : nat := length X.
Definition shape1 (X : matrix) : nat :=
  match X with
  | [] => 0
  | row :: _ => length row
  end.

(** [int(data_size / batch_size)]: the quotient, rounded towards zero;
    a [ZeroDivisionError] when the divisor is 0.  (The source divides in
    double precision floats, which agrees with this on every array that
    fits in memory.) *)
Definition int_div (a b : nat) : M nat :=
  if decide (b = 0) then raise ZeroDivisionError else mret (a / b).

(** [X[index * batch_size : (index + 1) * batch_size]] *)
Definition data_batch (X : matrix) (batch_size index : nat) : matrix :=
  slice (index * batch_size) ((index + 1) * batch_size) X.

(** The generator phase of a batch: [if stop == 0: ... else: ...]. *)
Definition train_generator (stop : Z) (noise : matrix) (noise_size : nat)
    : M unit :=
  if decide (stop = 0)%Z then
    let trick := py_repeat 1 noise_size in
    generator_loss ← combine_train_on_batch noise trick;
    history_append "generator_loss" generator_loss
  else
    let trick := py_repeat 1 noise_size in
    generator_loss ← combine_evaluate noise trick;
    history_append "generator_loss" generator_loss.

(** The body of [for index in range(num_batches)]. *)
Definition batch_body (X : matrix) (latent_size batch_size epoch : nat)
    (stop : Z) (index : nat) : M unit :=
  emit (Print_testing (epoch + 1) (index + 1));;
  (* Generate noise *)
  let noise_size := batch_size in
  noise ← np_random_uniform noise_size latent_size;
  (* Get training data *)
  let data_batch := data_batch X batch_size index in
  (* Generate potential outliers *)
  generated_data ← generator_predict noise;
  (* Concatenate real data to generated data *)
  let x := data_batch ++ generated_data in
  let y := py_repeat 1 batch_size ++ py_repeat 0 noise_size in
  (* Train discriminator *)
  discriminator_loss ← discriminator_train_on_batch x y;
  history_append "discriminator_loss" discriminator_loss;;
  (* Train generator *)
  train_generator stop noise noise_size.

(** [if epoch + 1 > self.stop_epochs: stop = 1] *)
Definition stop_training_generator (stop_epochs : Z) (epoch : nat) (stop : Z)
    : Z :=
  if decide (Z.of_nat epoch + 1 > stop_epochs)%Z then 1%Z else stop.

(** The value of [stop] before the first epoch. *)
Definition initial_stop : Z := 0.

(** The body of [for epoch in range(epochs)] down to
    [# Stop training generator]: the batch loop, then the update of the
    local variable [stop], which is its value. *)
Definition epoch_training (X : matrix) (latent_size data_size : nat)
    (epochs : Z) (epoch : nat) (stop : Z) : M Z :=
  emit (Print_epoch (epoch + 1) epochs);;
  let batch_size := min 500 data_size in
  num_batches ← int_div data_size batch_size;
  _ ← for_in (range (Z.of_nat num_batches))
        (λ index (_ : unit),
           batch_body X latent_size batch_size epoch stop index;;
           mret (Continue (R := Empty_set) ()))
        ();
  (* Stop training generator *)
  s ← get_self;
  mret (stop_training_generator (stop_epochs s) epoch stop).

(** The body of [for epoch in range(epochs)]; [stop] is the local
    variable it carries from one epoch to the next.  It ends in
    [return self]. *)
Definition epoch_body (X : matrix) (latent_size data_size : nat) (epochs : Z)
    (epoch : nat) (stop : Z) : M (flow Z pyobj) :=
  stop ← epoch_training X latent_size data_size epochs epoch stop;
  (* Detection result *)
  scores ← discriminator_predict X;
  modify_self (set_decision_scores_ scores);;
  _process_decision_scores;;
  mret (Return Self).

(** [SO_GAAL.fit] *)
Definition fit (X : matrix) (y : option (list Z)) : M pyobj :=
  X ← check_array_ X;
  _set_n_classes y;;
  let latent_size := shape1 X in
  let data_size := shape0 X in
  let stop := initial_stop in
  s ← get_self;
  let epochs := (stop_epochs s * 3)%Z in
  modify_self (set_train_history ∅);;
  d ← create_discriminator latent_size data_size;
  s ← get_self;
  modify_self (set_discriminator (compile_model
    {| lr := lr_d s; sgd_decay := decay s; sgd_momentum := momentum s |} d));;
  g ← create_generator latent_size;
  modify_self (set_generator g);;
  d ← attr discriminator;
  s ← get_self;
  modify_self (set_combine_model (compile_combined
    {| lr := lr_g s; sgd_decay := decay s; sgd_momentum := momentum s |}
    (model_state g) (model_state d)));;
  (* Start iteration *)
  o ← for_in (range epochs) (epoch_body X latent_size data_size epochs) stop;
  match o with
  | Return v => mret v
  | Continue _ => mret PyNone
  end.

(** [check_is_fitted(self, ['discriminator'])] *)
Definition check_is_fitted : M unit :=
  s ← get_self;
  match discriminator s with
  | Some _ => mret ()
  | None => raise NotFittedError
  end.

(** [SO_GAAL.decision_function] *)
Definition decision_function (X : matrix) : M matrix :=
  check_is_fitted;;
  X ← check_array_ X;
  pred_scores ← discriminator_predict X;
  mret pred_scores.

(** * Reading a run *)

(** ** Reading the trace *)

(** The epochs that were entered, by index. *)
Definition epochs_entered (tr : list event) : list nat :=
  omap (λ e, match e with Print_epoch e1 _ => Some (e1 - 1) | _ => None end) tr.

(** The batches that were executed, as (epoch index, batch index). *)
Definition batches_executed (tr : list event) : list (nat * nat) :=
  omap (λ e, match e with
             | Print_testing e1 i1 => Some (e1 - 1, i1 - 1)
             | _ => None
             end) tr.

(** The batches and labels the discriminator was trained on. *)
Definition discriminator_batches (tr : list event) : list (matrix * list Z) :=
  omap (λ e, match e with
             | Discriminator_train_on_batch x y => Some (x, y)
             | _ => None
             end) tr.

(** The training steps of the generator (through the combined model). *)
Definition generator_updates (tr : list event) : list (matrix * list Z) :=
  omap (λ e, match e with
             | Combine_train_on_batch noise trick => Some (noise, trick)
             | _ => None
             end) tr.

(** The evaluations of the combined model (the frozen generator phase). *)
Definition generator_evaluations (tr : list event) : list (matrix * list Z) :=
  omap (λ e, match e with
             | Combine_evaluate noise trick => Some (noise, trick)
             | _ => None
             end) tr.

(** ** The state of a run *)

(** The networks and the history exist: the state between the set-up of
    [fit] and its end. *)
Definition ready (w : world) : Prop :=
  is_Some (discriminator (self w)) ∧ is_Some (generator (self w)) ∧
  is_Some (combine_model (self w)) ∧ is_Some (train_history (self w)).

(** What training leaves alone: the configuration, the scores, and the
    layers of the two networks. *)
Definition preserved (w w' : world) : Prop :=
  contamination (self w') = contamination (self w) ∧
  stop_epochs (self w') = stop_epochs (self w) ∧
  decision_scores_ (self w') = decision_scores_ (self w) ∧
  model_layers <$> discriminator (self w') =
    model_layers <$> discriminator (self w) ∧
  model_layers <$> generator (self w') = model_layers <$> generator (self w).

(** What a frozen generator phase leaves alone: the generator and the
    optimizer of the combined model. *)
Definition frozen (stop : Z) (w w' : world) : Prop :=
  stop ≠ 0%Z →
  generator (self w') = generator (self w) ∧
  combine_model (self w') = combine_model (self w).

(** The events of batch [index] of epoch [epoch], run with the flag
    [stop]. *)
Definition batch_events (X : matrix) (latent_size batch_size epoch : nat)
    (stop : Z) (index : nat) (glayers : list Dense) (ev : list event) : Prop :=
  ∃ (noise : matrix) (g : network),
    length noise = batch_size ∧
    let generated_data := predict glayers g noise in
    ev = [ Print_testing (epoch + 1) (index + 1);
           Random_uniform batch_size latent_size;
           Generator_predict noise;
           Discriminator_train_on_batch
             (data_batch X batch_size index ++ generated_data)
             (py_repeat 1 batch_size ++ py_repeat 0 batch_size);
           if decide (stop = 0)%Z
           then Combine_train_on_batch noise (py_repeat 1 batch_size)
           else Combine_evaluate noise (py_repeat 1 batch_size) ].

(** ** Running method bodies

    [wp m Q w]: run from [w], the body [m] ends normally, with a value and
    a world that satisfy [Q]. *)
Definition wp {A} (m : M A) (Q : A → world → Prop) (w : world) : Prop :=
  ∃ a w', m w = (Normal a, w') ∧ Q a w'.

(** What an epoch leaves behind it when it is run on [X], from a world
    [w], with the flag [stop]. *)
Definition epoch_outcome (X : matrix) (latent_size : nat) (epochs : Z)
    (epoch : nat) (stop : Z) (glayers : list Dense) (w w' : world) : Prop :=
  let batch_size := min 500 (length X) in
  let num_batches := length X / batch_size in
  ∃ d evs,
    discriminator (self w') = Some d ∧
    Some (model_layers d) = model_layers <$> discriminator (self w) ∧
    decision_scores_ (self w') =
      Some (predict (model_layers d) (model_state d) X) ∧
    processed (self w') =
      Some (process_decision_scores (contamination (self w))
              (predict (model_layers d) (model_state d) X)) ∧
    trace w' =
      trace w ++ Print_epoch (epoch + 1) epochs :: concat evs ++
        [Discriminator_predict X; Process_decision_scores] ∧
    Forall2 (λ index ev,
      batch_events X latent_size batch_size epoch stop index glayers ev)
      (seq 0 num_batches) evs.

(** What a run of [fit] that enters the epoch loop leaves behind it, [X]
    being the validated array. *)
Definition fit_outcome (X : matrix) (w w' : world) : Prop :=
  let latent_size := shape1 X in
  let batch_size := min 500 (length X) in
  let num_batches := length X / batch_size in
  ∃ d evs,
    discriminator (self w') = Some d ∧
    model_layers d = discriminator_layers latent_size (length X) ∧
    decision_scores_ (self w') =
      Some (predict (model_layers d) (model_state d) X) ∧
    processed (self w') =
      Some (process_decision_scores (contamination (self w))
              (predict (model_layers d) (model_state d) X)) ∧
    trace w' =
      trace w ++ Print_epoch 1 (stop_epochs (self w) * 3) :: concat evs ++
        [Discriminator_predict X; Process_decision_scores] ∧
    Forall2 (λ index ev,
      batch_events X latent_size batch_size 0 initial_stop index
        (generator_layers latent_size) ev)
      (seq 0 num_batches) evs.

(** ** What a method keeps, and what it depends on *)

(** The arguments of the constructor, as the instance holds them. *)
Definition hyperparameters (s : SO_GAAL) : Z * Q * Q * Q * Q * Q :=
  (stop_epochs s, lr_d s, lr_g s, decay s, momentum s, contamination s).

(** [maintains P m]: whatever way [m] ends, normally or in an exception,
    a property [P] of the instance that holds before holds after. *)
Definition maintains {A} (P : SO_GAAL → Prop) (m : M A) : Prop :=
  ∀ w r w', P (self w) → m w = (r, w') → P (self w').

(** A property of the instance that no assignment of a fitted attribute
    can break. *)
Definition kept_by_assignments (P : SO_GAAL → Prop) : Prop :=
  ∀ s, P s →
    (∀ v, P (set__classes v s)) ∧ (∀ v, P (set_train_history v s)) ∧
    (∀ v, P (set_discriminator v s)) ∧ (∀ v, P (set_generator v s)) ∧
    (∀ v, P (set_combine_model v s)) ∧ (∀ v, P (set_decision_scores_ v s)) ∧
    (∀ v, P (set_processed v s)).

(** A series of the training history: [train_history[key]], the empty
    list for a key that is not there yet. *)
Definition series (key : string) (h : gmap string (list entry)) : list entry :=
  default [] (h !! key).

(** The history [h] has grown by [k] entries in each of its two series,
    and is otherwise unchanged. *)
Definition history_grown (k : nat) (h : gmap string (list entry))
    (w' : world) : Prop :=
  ∃ h',
    train_history (self w') = Some h' ∧
    length (series "discriminator_loss" h')
      = length (series "discriminator_loss" h) + k ∧
    length (series "generator_loss" h')
      = length (series "generator_loss" h) + k ∧
    ∀ key, key ≠ "discriminator_loss" → key ≠ "generator_loss" →
      h' !! key = h !! key.

(** The instance without its scores and what is derived from them. *)
Definition without_scores (s : SO_GAAL) : SO_GAAL :=
  {| contamination := contamination s; stop_epochs := stop_epochs s;
     lr_d := lr_d s; lr_g := lr_g s; decay := decay s; momentum := momentum s;
     _classes := _classes s; train_history := train_history s;
     discriminator := discriminator s; generator := generator s;
     combine_model := combine_model s;
     decision_scores_ := None; processed := None |}.

(** Two runs in step: the instances differ at most in their scores, the
    random sources are the same, and the same events [tr] were added to
    the traces [t1] and [t2] the runs started with. *)
Definition in_step (t1 t2 : list event) (w1 w2 : world) : Prop :=
  without_scores (self w1) = without_scores (self w2) ∧
  random w1 = random w2 ∧
  ∃ tr, trace w1 = t1 ++ tr ∧ trace w2 = t2 ++ tr.

(** [m] keeps two runs in step: when it ends normally in the one, it ends
    in the other with the same value. *)
Definition keeps_in_step {A} (t1 t2 : list event) (m : M A) : Prop :=
  ∀ w1 w2 a w1',
    in_step t1 t2 w1 w2 → m w1 = (Normal a, w1') →
    ∃ w2', m w2 = (Normal a, w2') ∧ in_step t1 t2 w1' w2'.

(** The batches the discriminator is trained on when the batches [idxs]
    of an epoch run one after the other from the world [w]: for each, the
    rows of its window of [X], followed by what the generator, as it is
    when the batch starts, predicts on the noise drawn from the random
    source, as it is when the batch starts; with [batch_size] ones and
    [batch_size] zeros as labels. *)
Inductive batches_from (X : matrix) (latent_size batch_size epoch : nat)
    (stop : Z) : list nat → world → list (matrix * list Z) → Prop :=
  | batches_from_nil w :
      batches_from X latent_size batch_size epoch stop [] w []
  | batches_from_cons index idxs w w1 g bl :
      generator (self w) = Some g →
      batch_body X latent_size batch_size epoch stop index w = (Normal (), w1) →
      batches_from X latent_size batch_size epoch stop idxs w1 bl →
      batches_from X latent_size batch_size epoch stop (index :: idxs) w
        ((data_batch X batch_size index ++
            predict (model_layers g) (model_state g)
              (random_uniform batch_size latent_size (random w)).1,
          py_repeat 1 batch_size ++ py_repeat 0 batch_size) :: bl).

(** The world in which [fit] enters its epoch loop, [X] being the
    validated array: the classes are set, the history is new, the two
    networks are built and compiled, and so is the combined model. *)
Definition setup_world (X : matrix) (y : option (list Z)) (w : world) : world :=
  let s0 := set_train_history ∅ (set__classes (set_n_classes y) (self w)) in
  let latent_size := shape1 X in
  let dis := build latent_size (discriminator_layers latent_size (shape0 X))
               (random w) in
  let d := compile_model
             {| lr := lr_d s0; sgd_decay := decay s0;
                sgd_momentum := momentum s0 |}
             {| model_input := latent_size;
                model_layers := discriminator_layers latent_size (shape0 X);
                model_state := dis.1 |} in
  let gen := build latent_size (generator_layers latent_size) dis.2 in
  let g := {| model_input := latent_size;
              model_layers := generator_layers latent_size;
              model_state := gen.1 |} in
  let c := compile_combined
             {| lr := lr_g s0; sgd_decay := decay s0;
                sgd_momentum := momentum s0 |}
             (model_state g) (model_state d) in
  {| self := set_combine_model c (set_generator g (set_discriminator d s0));
     random := gen.2;
     trace := trace w |}.

End SO_GAAL.

(** ** A small back end

    An executable back end over integers, on which the methods run: a
    network is one integer weight, a training step adds to it, and a
    prediction is the weight plus the sum of the row.  It shows that the
    contracts of [Backend] can be met, and the statements below are
    evaluated on it. *)
Module Toy.

Definition rectangular (X : list (list Z)) : bool :=
  match X with
  | [] => false
  | row :: rows =>
      negb (length row =? 0) && forallb (λ r, length r =? length row) rows
  end.

Definition toy_check_array (X : list (list Z)) : option (list (list Z)) :=
  if rectangular X then Some X else None.

Definition toy_uniform (rows cols : nat) (r : Z) : list (list Z) * Z :=
  (replicate rows (replicate cols (r `mod` 7)%Z), (r * 5 + 1)%Z).

Definition toy_predict (layers : list Dense) (net : Z) (x : list (list Z))
    : list (list Z) :=
  (λ row, replicate (output_units layers) (net + foldr Z.add 0 row)%Z) <$> x.

Lemma toy_check_array_nonempty X X' : toy_check_array X = Some X' → X' ≠ [].
Proof.
  unfold toy_check_array. destruct X as [|row rows]; simpl; [done|].
  destruct (_ && _); [|done]. by intros [= <-].
Qed.

Lemma toy_uniform_rows n m r : length (toy_uniform n m r).1 = n.
Proof. apply length_replicate. Qed.

Lemma toy_predict_rows layers net x :
  length (toy_predict layers net x) = length x.
Proof. apply length_fmap. Qed.

Lemma toy_predict_cols layers net x :
  Forall (λ row, length row = output_units layers) (toy_predict layers net x).
Proof.
  unfold toy_predict. apply Forall_fmap, Forall_true. intros row. simpl.
  apply length_replicate.
Qed.

#[export] Instance backend : Backend := {|
  entry := Z;
  network := Z;
  combined := nat;
  rng := Z;
  derived := nat;
  check_array := toy_check_array;
  random_uniform := toy_uniform;
  build := λ input layers r, ((r `mod` 3)%Z, (r + 1)%Z);
  compile := λ sgd net, net;
  compile_combined := λ sgd g d, 0;
  predict := toy_predict;
  train_on_batch := λ net x y, ((net + 1)%Z, Z.of_nat (length x));
  combined_train_on_batch := λ c g d noise trick, (S c, (g + 2)%Z, (g + d)%Z);
  combined_evaluate := λ c g d noise trick, (g + d)%Z;
  set_n_classes := λ y, 2;
  process_decision_scores := λ c scores, length scores;
  check_array_nonempty := toy_check_array_nonempty;
  random_uniform_rows := toy_uniform_rows;
  predict_rows := toy_predict_rows;
  predict_cols := toy_predict_cols
|}.

(** A fresh detector with the given [stop_epochs], and a world around it. *)
Definition detector (stop_epochs : Z) : SO_GAAL :=
  __init__ stop_epochs 0.01 0.0001 1e-6 0.9 0.1.

Definition world_of (s : SO_GAAL) : world :=
  {| self := s; random := 42%Z; trace := [] |}.

(** A detector whose networks are built, as the set-up of [fit] leaves
    it for two features and three samples. *)
Definition built_detector (stop_epochs : Z) : SO_GAAL :=
  set_combine_model 0
    (set_generator
       {| model_input := 2; model_layers := generator_layers 2;
          model_state := 0%Z |}
       (set_discriminator
          {| model_input := 2; model_layers := discriminator_layers 2 3;
             model_state := 0%Z |}
          (set_train_history ∅ (detector stop_epochs)))).

(** [n] samples with two features each. *)
Definition samples (n : nat) : list (list (@entry backend)) :=
  (λ i, [Z.of_nat i; 1%Z]) <$> seq 0 n.

End Toy.

(** * Properties *)

Section Properties.
Context `{Backend}.

#[local] Arguments Nat.min : simpl never.
#[local] Arguments Nat.div : simpl never.
#[local] Arguments Nat.modulo : simpl never.

(** ** One batch *)

Lemma preserved_refl w : preserved w w.
Proof. by repeat split. Qed.

Lemma preserved_trans w1 w2 w3 :
  preserved w1 w2 → preserved w2 w3 → preserved w1 w3.
Proof.
  intros (?&?&?&?&?) (?&?&?&?&?). repeat split; congruence.
Qed.

(** ** Running method bodies *)

Lemma wp_ret {A} (a : A) Q w : Q a w → wp (mret a) Q w.
Proof. intros HQ. by exists a, w. Qed.

Lemma wp_bind {A B} (m : M A) (f : A → M B) Q w :
  wp m (λ a w', wp (f a) Q w') w → wp (m ≫= f) Q w.
Proof.
  intros (a & w' & Hm & b & w'' & Hf & HQ). exists b, w''. split; [|done].
  unfold mbind, M_bind. by rewrite Hm.
Qed.

Lemma wp_mono {A} (m : M A) (Q Q' : A → world → Prop) w :
  wp m Q w → (∀ a w', Q a w' → Q' a w') → wp m Q' w.
Proof. intros (a & w' & Hm & HQ) HQQ'. exists a, w'. eauto. Qed.

Lemma wp_get_self Q w : Q (self w) w → wp get_self Q w.
Proof. intros HQ. by exists (self w), w. Qed.

Lemma wp_modify_self f Q w :
  Q () {| self := f (self w); random := random w; trace := trace w |} →
  wp (modify_self f) Q w.
Proof. intros HQ. by eexists _, _. Qed.

Lemma wp_emit e Q w :
  Q () {| self := self w; random := random w; trace := trace w ++ [e] |} →
  wp (emit e) Q w.
Proof. intros HQ. by eexists _, _. Qed.

Lemma wp_draw {A} (f : rng → A * rng) Q w :
  Q (f (random w)).1
    {| self := self w; random := (f (random w)).2; trace := trace w |} →
  wp (draw f) Q w.
Proof.
  intros HQ. unfold wp, draw. destruct (f (random w)) as [a r]. by eexists _, _.
Qed.

Lemma wp_attr {A} (a : SO_GAAL → option A) v Q w :
  a (self w) = Some v → Q v w → wp (attr a) Q w.
Proof.
  intros Ha HQ. exists v, w. split; [|done].
  unfold attr, get_self, mbind, M_bind. by rewrite Ha.
Qed.

(** One step of a body: the next call, then the rest. *)
Ltac wp_step :=
  lazymatch goal with
  | |- wp (_ ≫= _) _ _ => apply wp_bind
  | |- wp (mret _) _ _ => apply wp_ret
  | |- wp get_self _ _ => apply wp_get_self
  | |- wp (modify_self _) _ _ => apply wp_modify_self
  | |- wp (emit _) _ _ => apply wp_emit
  | |- wp (draw _) _ _ => apply wp_draw
  | |- wp (attr _) _ _ =>
      eapply wp_attr; [simpl; first [eassumption | reflexivity]|]
  end; simpl.

Ltac wp_steps := repeat wp_step.

Lemma batch_body_run X latent_size batch_size epoch stop index w glayers :
  ready w →
  model_layers <$> generator (self w) = Some glayers →
  wp (batch_body X latent_size batch_size epoch stop index)
     (λ _ w', ready w' ∧ preserved w w' ∧ frozen stop w w' ∧
        ∃ ev, trace w' = trace w ++ ev ∧
          batch_events X latent_size batch_size epoch stop index glayers ev) w.
Proof.
  destruct w as [s r tr]. intros ([d Hd]&[g Hg]&[c Hc]&[h Hh]) Hgl.
  simpl in *. rewrite Hg in Hgl. injection Hgl as <-.
  pose proof (random_uniform_rows batch_size latent_size r) as Hrows.
  unfold batch_body, np_random_uniform, generator_predict,
    discriminator_train_on_batch, history_append.
  wp_steps.
  destruct (train_on_batch _ _ _) as [net loss].
  wp_steps.
  unfold train_generator.
  destruct (decide (stop = 0)%Z) as [Hstop|Hstop].
  - unfold combine_train_on_batch, history_append. wp_steps.
    destruct (combined_train_on_batch _ _ _ _ _) as [[c' net'] loss'].
    wp_steps.
    split; [by repeat split|]. split; [repeat split; simpl; by rewrite ?Hd, ?Hg|].
    split; [by intros ?|].
    eexists. rewrite <- !app_assoc. simpl. split; [reflexivity|].
    eexists _, (model_state g). split; [exact Hrows|]. simpl.
    by rewrite decide_True.
  - unfold combine_evaluate, history_append. wp_steps.
    split; [by repeat split|]. split; [repeat split; simpl; by rewrite ?Hd, ?Hg|].
    split; [by intros _|].
    eexists. rewrite <- !app_assoc. simpl. split; [reflexivity|].
    eexists _, (model_state g). split; [exact Hrows|]. simpl.
    by rewrite decide_False.
Qed.

(** ** The batch loop *)

Lemma batch_loop_run X latent_size batch_size epoch stop idxs w glayers :
  ready w →
  model_layers <$> generator (self w) = Some glayers →
  wp (for_in idxs
        (λ index (_ : unit),
           batch_body X latent_size batch_size epoch stop index;;
           mret (Continue (R := Empty_set) ()))
        ())
     (λ _ w', ready w' ∧ preserved w w' ∧ frozen stop w w' ∧
        ∃ evs, trace w' = trace w ++ concat evs ∧
          Forall2 (λ index ev,
            batch_events X latent_size batch_size epoch stop index glayers ev)
            idxs evs) w.
Proof.
  revert w. induction idxs as [|index idxs IH]; intros w Hready Hgl; simpl.
  - apply wp_ret. split; [done|]. split; [apply preserved_refl|].
    split; [by intros _|].
    exists []. simpl. by rewrite app_nil_r.
  - do 2 apply wp_bind.
    eapply wp_mono; [by apply batch_body_run|].
    intros [] w1 (Hready1 & Hpres1 & Hfr1 & ev & Htr1 & Hev). simpl.
    apply wp_ret.
    assert (model_layers <$> generator (self w1) = Some glayers) as Hgl1.
    { destruct Hpres1 as (_&_&_&_&->). done. }
    eapply wp_mono; [by apply IH|].
    intros o w2 (Hready2 & Hpres2 & Hfr2 & evs & Htr2 & Hevs). simpl.
    split; [done|]. split; [by eapply preserved_trans|].
    split.
    { intros Hstop. destruct (Hfr1 Hstop) as [<- <-]. by apply Hfr2. }
    exists (ev :: evs). simpl. rewrite Htr2, Htr1, <- app_assoc.
    split; [done|]. by constructor.
Qed.

(** ** One epoch *)

Lemma range_of_nat n : range (Z.of_nat n) = seq 0 n.
Proof. unfold range. by rewrite Nat2Z.id. Qed.

Lemma range_nonpos n : (n ≤ 0)%Z → range n = [].
Proof. intros Hn. unfold range. by replace (Z.to_nat n) with 0 by lia. Qed.

Lemma range_pos n : (1 ≤ n)%Z → ∃ rest, range n = 0 :: rest.
Proof.
  intros Hn. unfold range. destruct (Z.to_nat n) as [|k] eqn:Hk; [lia|].
  by eexists.
Qed.

Lemma epoch_training_run X latent_size epochs epoch stop w glayers :
  ready w → X ≠ [] →
  model_layers <$> generator (self w) = Some glayers →
  wp (epoch_training X latent_size (length X) epochs epoch stop)
     (λ stop' w',
        stop' = stop_training_generator (stop_epochs (self w)) epoch stop ∧
        ready w' ∧ preserved w w' ∧ frozen stop w w' ∧
        ∃ evs,
          trace w' = trace w ++ Print_epoch (epoch + 1) epochs :: concat evs ∧
          Forall2 (λ index ev,
            batch_events X latent_size (min 500 (length X)) epoch stop index
              glayers ev)
            (seq 0 (length X / min 500 (length X))) evs) w.
Proof.
  intros Hready HX Hgl. unfold epoch_training, int_div.
  rewrite decide_False by (destruct X; simpl; [done|lia]).
  wp_steps. rewrite range_of_nat.
  eapply wp_mono.
  { apply batch_loop_run; [|exact Hgl]. destruct Hready as (?&?&?&?). done. }
  intros _ w1 (Hready1 & Hpres1 & Hfr1 & evs & Htr1 & Hevs). simpl in *.
  wp_steps. destruct Hpres1 as (Hcont & Hse & Hsc & Hdl & Hgl1).
  simpl in Hcont, Hse, Hsc, Hdl, Hgl1.
  split; [by rewrite Hse|]. split; [done|]. split; [done|]. split; [done|].
  exists evs. by rewrite Htr1, <- app_assoc.
Qed.

Lemma epoch_body_run X latent_size epochs epoch stop w glayers :
  ready w → X ≠ [] →
  model_layers <$> generator (self w) = Some glayers →
  wp (epoch_body X latent_size (length X) epochs epoch stop)
     (λ o w', o = Return Self ∧
        epoch_outcome X latent_size epochs epoch stop glayers w w') w.
Proof.
  intros Hready HX Hgl. unfold epoch_body. apply wp_bind.
  eapply wp_mono; [by apply epoch_training_run|].
  intros _ w1 (_ & Hready1 & Hpres1 & _ & evs & Htr1 & Hevs). simpl in *.
  destruct Hready1 as ([d Hd] & _).
  destruct Hpres1 as (Hcont & _ & _ & Hdl & _). simpl in Hcont, Hdl, Htr1.
  unfold discriminator_predict, _process_decision_scores.
  wp_steps. split; [done|].
  exists d, evs. simpl. rewrite Hd, Hcont. rewrite <- Hdl, Hd.
  repeat split; try done.
  rewrite Htr1. simpl. rewrite <- !app_assoc. done.
Qed.

(** ** [fit], case by case *)

(** An array that [check_array] refuses: the [ValueError] goes through,
    nothing else happens. *)
Lemma fit_invalid X y w :
  check_array X = None → fit X y w = (Raise ValueError, w).
Proof.
  intros HX. unfold fit, check_array_, mbind, M_bind. by rewrite HX.
Qed.

(** No epoch to run: the networks are built, and [fit] falls off its end. *)
Lemma fit_no_epoch X y w X' :
  check_array X = Some X' → (stop_epochs (self w) ≤ 0)%Z →
  wp (fit X y)
     (λ r w', r = PyNone ∧ trace w' = trace w ∧
        decision_scores_ (self w') = decision_scores_ (self w) ∧
        processed (self w') = processed (self w) ∧
        ∃ d, discriminator (self w') = Some d ∧
          model_layers d = discriminator_layers (shape1 X') (shape0 X')) w.
Proof.
  intros HX Hstop. unfold fit, check_array_. rewrite HX.
  unfold _set_n_classes, create_discriminator, create_generator.
  wp_steps. rewrite range_nonpos by lia. simpl. wp_steps.
  repeat split. by eexists.
Qed.

(** At least one epoch to run: the first one returns. *)
Lemma fit_first_epoch X y w X' :
  check_array X = Some X' → (1 ≤ stop_epochs (self w))%Z →
  wp (fit X y) (λ r w', r = Self ∧ fit_outcome X' w w') w.
Proof.
  intros HX Hstop. pose proof (check_array_nonempty _ _ HX) as Hne.
  unfold fit, check_array_. rewrite HX.
  unfold _set_n_classes, create_discriminator, create_generator.
  wp_steps.
  destruct (range_pos (stop_epochs (self w) * 3)) as [rest ->]; [lia|].
  simpl. apply wp_bind.
  eapply wp_mono.
  { unfold shape0.
    apply epoch_body_run with (glayers := generator_layers (shape1 X'));
      [by repeat split|done|done]. }
  intros o w1 [-> Hout]. simpl. wp_steps. split; [done|].
  destruct Hout as (d & evs & Hd & Hdl & Hscores & Hproc & Htr & Hevs).
  simpl in *. exists d, evs. repeat split; try done. by injection Hdl.
Qed.

(** Every call of [fit] is one of the three. *)
Lemma fit_cases X y w :
  (check_array X = None ∧ fit X y w = (Raise ValueError, w)) ∨
  (∃ X' w', check_array X = Some X' ∧ (stop_epochs (self w) ≤ 0)%Z ∧
     fit X y w = (Normal PyNone, w') ∧ trace w' = trace w ∧
     decision_scores_ (self w') = decision_scores_ (self w) ∧
     is_Some (discriminator (self w'))) ∨
  (∃ X' w', check_array X = Some X' ∧ (1 ≤ stop_epochs (self w))%Z ∧
     fit X y w = (Normal Self, w') ∧ fit_outcome X' w w').
Proof.
  destruct (check_array X) as [X'|] eqn:HX.
  - right. destruct (decide (stop_epochs (self w) ≤ 0)%Z) as [Hstop|Hstop].
    + left. destruct (fit_no_epoch X y w X' HX Hstop)
        as (r & w' & Hfit & -> & Htr & Hsc & _ & d & Hd & _).
      exists X', w'. by rewrite Hd.
    + right. destruct (fit_first_epoch X y w X' HX)
        as (r & w' & Hfit & -> & Hout); [lia|].
      exists X', w'. repeat split; [lia|done..].
  - left. split; [done|]. by apply fit_invalid.
Qed.

(** ** The trace of a batch, and of a run *)

Lemma omap_concat_nil {B} (p : event → option B) (P : nat → list event → Prop)
    idxs evs :
  (∀ i ev, P i ev → omap p ev = []) →
  Forall2 P idxs evs → omap p (concat evs) = [].
Proof.
  intros HP. induction 1 as [|i ev idxs evs Hev _ IH]; simpl; [done|].
  by rewrite omap_app, (HP i ev Hev), IH.
Qed.

Lemma omap_concat_singletons {B} (p : event → option B)
    (P : nat → list event → Prop) (R : nat → B → Prop) idxs evs :
  (∀ i ev, P i ev → ∃ b, omap p ev = [b] ∧ R i b) →
  Forall2 P idxs evs → Forall2 R idxs (omap p (concat evs)).
Proof.
  intros HP. induction 1 as [|i ev idxs evs Hev _ IH]; simpl; [constructor|].
  rewrite omap_app. destruct (HP i ev Hev) as (b & -> & Hb). simpl.
  by constructor.
Qed.

Lemma batch_events_epochs X ls bs e stop i gl ev :
  batch_events X ls bs e stop i gl ev → epochs_entered ev = [].
Proof. intros (noise & g & _ & ->). simpl. by destruct (decide _). Qed.

Lemma batch_events_batches X ls bs e stop i gl ev :
  batch_events X ls bs e stop i gl ev →
  ∃ b, batches_executed ev = [b] ∧ b = (e, i).
Proof.
  intros (noise & g & _ & ->). exists (e, i). split; [|done]. simpl.
  replace (e + 1 - 1) with e by lia. replace (i + 1 - 1) with i by lia.
  by destruct (decide _).
Qed.

Lemma batch_events_discriminator X ls bs e stop i gl ev :
  batch_events X ls bs e stop i gl ev →
  ∃ b, discriminator_batches ev = [b] ∧
    ∃ noise g, length noise = bs ∧
      b = (data_batch X bs i ++ predict gl g noise,
           py_repeat 1 bs ++ py_repeat 0 bs).
Proof.
  intros (noise & g & Hn & ->). eexists. split.
  - simpl. by destruct (decide _).
  - by exists noise, g.
Qed.

Lemma batch_events_updates X ls bs e i gl ev :
  batch_events X ls bs e 0 i gl ev →
  ∃ b, generator_updates ev = [b] ∧ b.2 = py_repeat 1 bs ∧ length b.1 = bs.
Proof. intros (noise & g & Hn & ->). by eexists. Qed.

Lemma batch_events_evaluations X ls bs e i gl ev :
  batch_events X ls bs e 0 i gl ev → generator_evaluations ev = [].
Proof. by intros (noise & g & Hn & ->). Qed.

Lemma batch_events_frozen X ls bs e stop i gl ev :
  stop ≠ 0%Z → batch_events X ls bs e stop i gl ev →
  generator_updates ev = [] ∧
  ∃ noise, generator_evaluations ev = [(noise, py_repeat 1 bs)].
Proof.
  intros Hstop (noise & g & Hn & ->). simpl. rewrite decide_False by done.
  split; [done|]. by exists noise.
Qed.

Lemma fit_outcome_training X w w' :
  fit_outcome X w w' →
  ∃ training,
    trace w' =
      trace w ++ Print_epoch 1 (stop_epochs (self w) * 3) :: training ++
        [Discriminator_predict X; Process_decision_scores] ∧
    epochs_entered training = [] ∧
    batches_executed training =
      (λ index, (0, index)) <$> seq 0 (length X / min 500 (length X)) ∧
    generator_evaluations training = [] ∧
    Forall2 (λ (index : nat) b, b.2 = py_repeat 1 (min 500 (length X)) ∧
                                length b.1 = min 500 (length X))
      (seq 0 (length X / min 500 (length X))) (generator_updates training) ∧
    Forall2 (λ index b,
      ∃ noise g, length noise = min 500 (length X) ∧
        b = (data_batch X (min 500 (length X)) index ++
               predict (generator_layers (shape1 X)) g noise,
             py_repeat 1 (min 500 (length X)) ++
               py_repeat 0 (min 500 (length X))))
      (seq 0 (length X / min 500 (length X))) (discriminator_batches training).
Proof.
  intros (d & evs & _ & _ & _ & _ & Htr & Hevs). exists (concat evs).
  split; [done|]. split; [|split; [|split; [|split]]].
  - eapply omap_concat_nil; [|exact Hevs]. intros i ev.
    apply batch_events_epochs.
  - apply list_eq_Forall2, Forall2_fmap_r, Forall2_flip.
    eapply omap_concat_singletons; [|exact Hevs]. intros i ev.
    apply batch_events_batches.
  - eapply omap_concat_nil; [|exact Hevs]. intros i ev.
    apply batch_events_evaluations.
  - eapply omap_concat_singletons; [|exact Hevs]. intros i ev.
    apply batch_events_updates.
  - eapply omap_concat_singletons; [|exact Hevs]. intros i ev.
    apply batch_events_discriminator.
Qed.

(** ** The architecture of the discriminator *)

(** [math_ceil_sqrt n] is the least natural number whose square reaches
    [n]: the ceiling of the square root. *)
Lemma math_ceil_sqrt_least n :
  n ≤ math_ceil_sqrt n * math_ceil_sqrt n ∧
  ∀ v, n ≤ v * v → math_ceil_sqrt n ≤ v.
Proof.
  unfold math_ceil_sqrt. pose proof (Nat.sqrt_spec n (Nat.le_0_l n)) as [Hlo Hhi].
  destruct (Nat.eqb_spec (Nat.sqrt n * Nat.sqrt n) n) as [Heq|Hne].
  - split; [lia|]. intros v Hv. nia.
  - split; [lia|]. intros v Hv. nia.
Qed.

Lemma ceil_div_between m P c :
  (0 < P)%Z → ((c - 1) * P < m <= c * P)%Z → ((m + P - 1) / P)%Z = c.
Proof.
  intros HP [Hlo Hhi]. symmetry.
  apply (Z.div_unique _ _ _ (m + P - 1 - c * P)); lia.
Qed.

(** Below 2^52 the rounding of the double square root never crosses an
    integer: its ceiling is the exact one. *)
Lemma math_sqrt_ceil_exact v c :
  (1 <= v < 2 ^ 52)%Z → (1 <= c)%Z →
  ((c - 1) * (c - 1) < v <= c * c)%Z →
  math_ceil (math_sqrt v) = c.
Proof.
  intros [Hv1 Hv2] Hc [Hlo Hhi]. unfold math_sqrt.
  destruct (Z.eqb_spec v 0) as [->|_]; [lia|].
  set (L := Z.log2 v). set (e := (L / 2)%Z). set (j := (52 - e)%Z).
  assert (0 <= L < 52)%Z as HL.
  { split; [apply Z.log2_nonneg|]. apply Z.log2_lt_pow2; lia. }
  assert (0 <= e <= 25)%Z as He.
  { unfold e. split; [apply Z.div_pos; lia|].
    apply Z.lt_succ_r. apply Z.div_lt_upper_bound; lia. }
  assert (L + 1 <= 2 * (e + 1))%Z as HLe.
  { unfold e. pose proof (Z.div_mod L 2 ltac:(lia)).
    pose proof (Z.mod_pos_bound L 2 ltac:(lia)). lia. }
  assert (0 <= j)%Z as Hj by (unfold j; lia).
  destruct (Z.leb_spec 0 j) as [_|]; [|lia].
  set (P := (2 ^ j)%Z). set (Q := (2 ^ (e + 1))%Z).
  assert (0 < Q)%Z as HQ by (apply Z.pow_pos_nonneg; lia).
  assert (Q <= P)%Z as HQP by (apply Z.pow_le_mono_r; unfold j; lia).
  assert (v < Q * Q)%Z as HvQ.
  { unfold Q. rewrite <- Z.pow_add_r by lia.
    eapply Z.lt_le_trans; [apply (proj2 (Z.log2_spec v ltac:(lia)))|].
    fold L. rewrite <- Z.add_1_r. apply Z.pow_le_mono_r; lia. }
  assert ((4 ^ j)%Z = (P * P)%Z) as ->.
  { unfold P. rewrite <- Z.pow_add_r by lia.
    replace (j + j)%Z with (2 * j)%Z by lia. by rewrite Z.pow_mul_r by lia. }
  set (N := (v * (P * P))%Z).
  assert (0 <= N)%Z as HN by (unfold N; nia).
  pose proof (Z.sqrt_spec N HN) as [Hs1 Hs2]. set (s := Z.sqrt N) in *.
  assert (0 <= s)%Z as Hs by apply Z.sqrt_nonneg.
  assert (c - 1 < Q)%Z as HcQ by nia.
  unfold math_ceil.
  destruct (Z.leb_spec 0 j) as [_|]; [|lia]. fold P.
  apply ceil_div_between; [lia|].
  assert ((c - 1) * P <= s)%Z as Hsa.
  { assert (((c - 1) * P) * ((c - 1) * P) < (s + 1) * (s + 1))%Z
      by (unfold N in *; nia).
    nia. }
  assert (s <= c * P)%Z as Hsb by (unfold N in *; nia).
  destruct (Z.leb_spec (N - s * s) s) as [Hround|Hround].
  - split; [|done].
    destruct (Z.eq_dec s ((c - 1) * P)) as [Heq|]; [|lia].
    exfalso. unfold N in *. rewrite Heq in Hround. nia.
  - split; [lia|].
    destruct (Z.eq_dec s (c * P)) as [Heq|]; [|lia].
    exfalso. unfold N in *. rewrite Heq in Hround. nia.
Qed.

(** Up to 2^52 the source's double precision computation gives the exact
    ceiling of the square root. *)
Lemma math_ceil_sqrt_double_exact n :
  (Z.of_nat n ≤ 2 ^ 52)%Z →
  math_ceil_sqrt_double (Z.of_nat n) = Some (Z.of_nat (math_ceil_sqrt n)).
Proof.
  intros Hn. pose proof (math_ceil_sqrt_least n) as [Hup Hleast].
  unfold math_ceil_sqrt_double, float_of_int.
  destruct (Z.ltb_spec (Z.of_nat n) (2 ^ 53)) as [_|]; [|lia]. simpl. f_equal.
  set (c := math_ceil_sqrt n) in *.
  destruct (decide (n = 0)) as [->|Hpos].
  { assert (c = 0) as -> by (specialize (Hleast 0); lia). done. }
  assert (1 ≤ c) as Hc by (destruct c; lia).
  assert ((c - 1) * (c - 1) < n) as Hlow.
  { destruct (decide ((c - 1) * (c - 1) < n)); [done|].
    specialize (Hleast (c - 1)). lia. }
  destruct (decide (Z.of_nat n = 2 ^ 52)%Z) as [Heq|Hne].
  - rewrite Heq.
    assert (Z.of_nat c = 2 ^ 26)%Z as ->; [|by vm_compute].
    assert ((Z.of_nat c - 1) * (Z.of_nat c - 1) < 2 ^ 52)%Z by nia.
    assert (2 ^ 52 <= Z.of_nat c * Z.of_nat c)%Z by nia.
    change (2 ^ 52)%Z with (2 ^ 26 * 2 ^ 26)%Z in *.
    change (2 ^ 26)%Z with 67108864%Z in *. nia.
  - apply math_sqrt_ceil_exact; [lia|lia|]. nia.
Qed.

(** C5: for every training size up to 2^52, [create_discriminator]
    returns a model of exactly two dense layers: a hidden one with
    rectified-linear activation, whose width is the ceiling of the square
    root of the training size (the least [v] with [n_samples <= v * v]; 4
    for 10 samples, 10 for 100, 11 for 101), which is also what the
    double precision computation of the source gives there, followed by
    an output layer of one unit with sigmoid activation. *)
Theorem create_discriminator_layers latent_size n_samples w :
  (Z.of_nat n_samples ≤ 2 ^ 52)%Z →
  ∃ model w' hidden output,
    create_discriminator latent_size n_samples w = (Normal model, w') ∧
    model_layers model = [hidden; output] ∧
    math_ceil_sqrt_double (Z.of_nat n_samples) = Some (Z.of_nat (units hidden)) ∧
    n_samples ≤ units hidden * units hidden ∧
    (∀ v, n_samples ≤ v * v → units hidden ≤ v) ∧
    activation hidden = relu ∧
    units output = 1 ∧
    activation output = sigmoid ∧
    math_ceil_sqrt_double 10 = Some 4%Z ∧
    math_ceil_sqrt_double 100 = Some 10%Z ∧
    math_ceil_sqrt_double 101 = Some 11%Z.
Proof.
  intros Hn. unfold create_discriminator.
  destruct (build latent_size (discriminator_layers latent_size n_samples)
              (random w)) as [net r] eqn:Hbuild.
  eexists _, _, _, _. split.
  { unfold mbind, M_bind, draw. rewrite Hbuild. reflexivity. }
  simpl. pose proof (math_ceil_sqrt_least n_samples) as [? ?].
  split; [done|]. split; [by apply math_ceil_sqrt_double_exact|].
  repeat split; done.
Qed.

(** C5, past the bound: at 2^52 + 1 samples the double nearest to the
    square root is 2^26, below the root, and the width the source
    computes is 67108864, whose square does not reach the number of
    samples: the ceiling of the square root is 67108865. *)
Lemma hidden_width_rounds_down_past_2_52 :
  math_ceil_sqrt_double (2 ^ 52 + 1) = Some 67108864%Z ∧
  ¬ (2 ^ 52 + 1 ≤ 67108864 * 67108864)%Z ∧
  (67108864 * 67108864 < 2 ^ 52 + 1 ≤ 67108865 * 67108865)%Z.
Proof. split; [by vm_compute|]. split; [by vm_compute|]. split; by vm_compute. Qed.

(** ** The early return *)

(** C1: when [stop_epochs >= 1], a call of [fit] on an array that
    [check_array] accepts enters epoch 0 and no other: after the batches
    of epoch 0 it predicts on the whole validated array with the
    discriminator, stores the result as [decision_scores_], calls the
    score-processing hook and returns [self], whatever the number of
    epochs [stop_epochs * 3].  (On an array that [check_array] refuses,
    the [ValueError] leaves before the loop.) *)
Theorem fit_returns_in_first_epoch X y w :
  (1 ≤ stop_epochs (self w))%Z →
  match check_array X with
  | None => fit X y w = (Raise ValueError, w)
  | Some X' =>
      ∃ w' d training,
        fit X y w = (Normal Self, w') ∧
        trace w' =
          trace w ++ Print_epoch 1 (stop_epochs (self w) * 3) :: training ++
            [Discriminator_predict X'; Process_decision_scores] ∧
        epochs_entered training = [] ∧
        batches_executed training =
          (λ index, (0, index)) <$> seq 0 (length X' / min 500 (length X')) ∧
        discriminator (self w') = Some d ∧
        decision_scores_ (self w') =
          Some (predict (model_layers d) (model_state d) X') ∧
        processed (self w') =
          Some (process_decision_scores (contamination (self w))
                  (predict (model_layers d) (model_state d) X'))
  end.
Proof.
  intros Hstop.
  destruct (fit_cases X y w)
    as [[HX Hfit]|[(X' & w' & HX & ? & _)|(X' & w' & HX & _ & Hfit & Hout)]];
    [by rewrite HX|lia|].
  rewrite HX. destruct (fit_outcome_training _ _ _ Hout)
    as (training & Htr & Hep & Hbat & _).
  destruct Hout as (d & evs & Hd & _ & Hscores & Hproc & _).
  by exists w', d, training.
Qed.


(** ** No epoch at all *)

(** C10: when [stop_epochs <= 0], a call of [fit] runs no batch and makes
    no call to train or to predict (its trace is empty), leaves
    [decision_scores_] as it was (unset, on a fresh instance), and does
    not return [self]: on an array that [check_array] accepts it falls
    off the end of the method, which returns [None]. *)
Theorem fit_without_epochs X y w :
  (stop_epochs (self w) ≤ 0)%Z →
  ∃ r w',
    fit X y w = (r, w') ∧
    trace w' = trace w ∧
    batches_executed (trace w') = batches_executed (trace w) ∧
    decision_scores_ (self w') = decision_scores_ (self w) ∧
    r ≠ Normal Self ∧
    (is_Some (check_array X) → r = Normal PyNone).
Proof.
  intros Hstop.
  destruct (fit_cases X y w)
    as [[HX Hfit]|[(X' & w' & HX & _ & Hfit & Htr & Hsc & _)|
                   (X' & w' & HX & ? & _)]]; [| |lia].
  - exists (Raise ValueError), w. rewrite HX. repeat split; try done.
  - exists (Normal PyNone), w'. by rewrite Htr.
Qed.

(** ** The flag [stop] *)

(** C4: the flag [stop] is 0 before the first epoch.  An epoch run with
    the flag [stop] leaves it at 1 when its index plus one exceeds
    [stop_epochs], and as it was otherwise: once 1, it stays 1.  In an
    epoch run with [stop = 1] the generator phase of each batch evaluates
    the combined model and makes no training step: the generator is the
    same after the epoch as before. *)
Theorem stop_flag_one_way X latent_size epochs epoch stop w :
  ready w → X ≠ [] →
  initial_stop = 0%Z ∧
  ∃ stop' w' new,
    epoch_training X latent_size (length X) epochs epoch stop w
      = (Normal stop', w') ∧
    trace w' = trace w ++ new ∧
    ((Z.of_nat epoch + 1 > stop_epochs (self w))%Z → stop' = 1%Z) ∧
    (¬ (Z.of_nat epoch + 1 > stop_epochs (self w))%Z → stop' = stop) ∧
    (stop = 1%Z → stop' = 1%Z) ∧
    (stop = 1%Z →
       generator (self w') = generator (self w) ∧
       generator_updates new = [] ∧
       length (generator_evaluations new) = length (batches_executed new) ∧
       length (batches_executed new) = length X / min 500 (length X)).
Proof.
  intros Hready HX. split; [done|].
  pose proof Hready as (_ & [g Hg] & _).
  destruct (epoch_training_run X latent_size epochs epoch stop w
              (model_layers g) Hready HX)
    as (stop' & w' & Hrun & -> & _ & _ & Hfr & evs & Htr & Hevs);
    [by rewrite Hg|].
  eexists _, w', _. split; [exact Hrun|]. split; [exact Htr|].
  unfold stop_training_generator.
  split; [intros ?; by rewrite decide_True|].
  split; [intros ?; by rewrite decide_False|].
  split; [intros ->; by destruct (decide _)|].
  intros ->. split; [by apply Hfr|].
  assert (1 ≠ 0)%Z as Hne by done.
  assert (generator_updates (concat evs) = []) as Hup.
  { eapply omap_concat_nil; [|exact Hevs]. intros i ev Hev. simpl in Hev.
    by destruct (batch_events_frozen _ _ _ _ _ _ _ _ Hne Hev). }
  assert (Forall2 (λ (i : nat) (b : matrix * list Z), True)
            (seq 0 (length X / min 500 (length X)))
            (generator_evaluations (concat evs))) as Hevals.
  { eapply omap_concat_singletons; [|exact Hevs]. intros i ev Hev.
    simpl in Hev.
    destruct (batch_events_frozen _ _ _ _ _ _ _ _ Hne Hev)
      as (_ & noise & Hnoise). eexists. split; [exact Hnoise|done]. }
  assert (Forall2 (λ (i : nat) (b : nat * nat), True)
            (seq 0 (length X / min 500 (length X)))
            (batches_executed (concat evs))) as Hbat.
  { eapply omap_concat_singletons; [|exact Hevs]. intros i ev Hev.
    destruct (batch_events_batches _ _ _ _ _ _ _ _ Hev) as (b & Hb & _).
    eexists. split; [exact Hb|done]. }
  apply Forall2_length in Hevals, Hbat. rewrite length_seq in Hevals, Hbat.
  change (generator_updates (Print_epoch (epoch + 1) epochs :: concat evs))
    with (generator_updates (concat evs)).
  change (generator_evaluations (Print_epoch (epoch + 1) epochs :: concat evs))
    with (generator_evaluations (concat evs)).
  change (batches_executed (Print_epoch (epoch + 1) epochs :: concat evs))
    with (batches_executed (concat evs)).
  by rewrite Hup, <- Hevals, <- Hbat.
Qed.

(** ** The batches *)

Lemma data_batch_take_drop (X : matrix) batch_size index :
  data_batch X batch_size index = take batch_size (drop (index * batch_size) X).
Proof.
  unfold data_batch, slice. f_equal. lia.
Qed.

Lemma data_batch_length (X : matrix) batch_size index :
  index < length X / batch_size →
  length (data_batch X batch_size index) = batch_size.
Proof.
  intros Hi. rewrite data_batch_take_drop, length_take, length_drop.
  pose proof (Nat.Div0.mul_div_le (length X) batch_size). nia.
Qed.




Lemma Forall2_with_index {B} (P : nat → B → Prop) n (l : list B) :
  Forall2 P (seq 0 n) l → Forall2 (λ i b, i < n ∧ P i b) (seq 0 n) l.
Proof.
  intros HP. apply Forall2_same_length_lookup. split.
  { by eapply Forall2_length. }
  intros i a b Ha Hb. split.
  - apply lookup_seq in Ha. lia.
  - by eapply Forall2_lookup_lr.
Qed.


Lemma count_occ_replicate_eq (v : Z) n :
  count_occ Z.eq_dec (py_repeat v n) v = n.
Proof.
  unfold py_repeat. induction n as [|n IH]; simpl; [done|].
  destruct (Z.eq_dec v v); [by rewrite IH|done].
Qed.

Lemma count_occ_replicate_ne (v v' : Z) n :
  v ≠ v' → count_occ Z.eq_dec (py_repeat v n) v' = 0.
Proof.
  intros Hne. unfold py_repeat. induction n as [|n IH]; simpl; [done|].
  destruct (Z.eq_dec v v'); [done|exact IH].
Qed.

(** ** Scores *)

Lemma decision_function_run X X' d w :
  discriminator (self w) = Some d → check_array X = Some X' →
  decision_function X w =
    (Normal (predict (model_layers d) (model_state d) X'),
     {| self := self w; random := random w;
        trace := trace w ++ [Discriminator_predict X'] |}).
Proof.
  intros Hd HX.
  unfold decision_function, check_is_fitted, check_array_, discriminator_predict,
    attr, get_self, emit, mbind, M_bind, mret, M_ret.
  simpl. rewrite Hd, HX. simpl. by rewrite Hd.
Qed.

(** The discriminator ends in one unit. *)
Lemma discriminator_output_units latent_size data_size :
  output_units (discriminator_layers latent_size data_size) = 1.
Proof. done. Qed.

(** With at least one epoch to run, [fit] on a validated array returns
    and leaves one score per sample. *)
Lemma fit_scores_per_sample X y w X' :
  check_array X = Some X' → (1 ≤ stop_epochs (self w))%Z →
  ∃ w' scores,
    fit X y w = (Normal Self, w') ∧
    decision_scores_ (self w') = Some scores ∧
    length scores = length X' ∧
    Forall (λ row, length row = 1) scores.
Proof.
  intros HX Hstop.
  destruct (fit_first_epoch X y w X' HX Hstop)
    as (r & w' & Hfit & -> & d & evs & Hd & Hdl & Hsc & _).
  eexists w', _. split; [exact Hfit|]. split; [exact Hsc|].
  split; [apply predict_rows|].
  rewrite <- (discriminator_output_units (shape1 X') (length X')), <- Hdl.
  apply predict_cols.
Qed.

(** When [fit(X)] has returned [self], [decision_function(X)] on the
    instance as [fit] left it returns exactly the stored
    [decision_scores_] (the same rows in the same order, one per sample),
    and leaves the instance as it is.  ([fit] returns [self] only when
    [stop_epochs >= 1]; for the other runs see
    [decision_function_without_stored_scores].) *)
Theorem decision_function_after_fit X y w w' :
  fit X y w = (Normal Self, w') →
  ∃ scores w'',
    decision_function X w' = (Normal scores, w'') ∧
    decision_scores_ (self w') = Some scores ∧
    self w'' = self w' ∧
    (∀ X', check_array X = Some X' → length scores = length X').
Proof.
  intros Hfit.
  destruct (fit_cases X y w)
    as [[HX Hfit']|[(X' & w1 & HX & Hstop & Hfit' & _)|
                    (X' & w1 & HX & Hstop & Hfit' & Hout)]];
    rewrite Hfit in Hfit'; [done..|].
  injection Hfit' as ->.
  destruct Hout as (d & evs & Hd & _ & Hsc & _).
  eexists _, _. split; [by apply decision_function_run|].
  split; [exact Hsc|]. split; [done|].
  intros X2 HX2. rewrite HX in HX2. injection HX2 as <-. apply predict_rows.
Qed.

(** ** Not fitted *)

(** C8: [decision_function] raises [NotFittedError] exactly when the
    instance has no discriminator, and then at once, before any use of
    its argument, valid or not, and without doing anything else.  That is
    the case on an instance that [__init__] just made, and it stays the
    case when [check_array] refuses the array given to [fit].  As soon as
    [fit] has assigned the discriminator there is no [NotFittedError]
    any more: not after a [fit] that returned, [self] or [None], and not
    on the instance as [fit] holds it when it enters the epoch loop. *)
Theorem decision_function_not_fitted :
  (∀ stop_epochs lr_d lr_g decay momentum contamination,
     discriminator
       (__init__ stop_epochs lr_d lr_g decay momentum contamination) = None) ∧
  (∀ X w,
     discriminator (self w) = None →
     decision_function X w = (Raise NotFittedError, w)) ∧
  (∀ X w,
     is_Some (discriminator (self w)) →
     (decision_function X w).1 ≠ Raise NotFittedError) ∧
  (∀ X y w X2,
     check_array X = None → discriminator (self w) = None →
     decision_function X2 (fit X y w).2
       = (Raise NotFittedError, (fit X y w).2)) ∧
  (∀ X y w r w',
     fit X y w = (Normal r, w') →
     ∀ X2, (decision_function X2 w').1 ≠ Raise NotFittedError) ∧
  (∀ X' y w X2,
     (decision_function X2 (setup_world X' y w)).1 ≠ Raise NotFittedError).
Proof.
  assert (∀ X w, discriminator (self w) = None →
            decision_function X w = (Raise NotFittedError, w)) as Hnot.
  { intros X w Hd.
    unfold decision_function, check_is_fitted, get_self, mbind, M_bind.
    simpl. by rewrite Hd. }
  assert (∀ X w, is_Some (discriminator (self w)) →
            (decision_function X w).1 ≠ Raise NotFittedError) as Hfitted.
  { intros X w [d Hd]. destruct (check_array X) as [X'|] eqn:HX.
    - by rewrite (decision_function_run X X' d w Hd HX).
    - unfold decision_function, check_is_fitted, check_array_, get_self,
        mbind, M_bind, mret, M_ret.
      simpl. by rewrite Hd, HX. }
  split; [done|]. split; [exact Hnot|]. split; [exact Hfitted|].
  split; [|split].
  - intros X y w X2 HX Hd. rewrite (fit_invalid X y w HX). simpl.
    by apply Hnot.
  - intros X y w r w' Hfit X2. apply Hfitted.
    destruct (fit_cases X y w)
      as [[HX Hfit']|[(X' & w1 & HX & Hstop & Hfit' & _ & _ & Hd)|
                      (X' & w1 & HX & Hstop & Hfit' & Hout)]];
      rewrite Hfit in Hfit'; [done| |].
    + by injection Hfit' as -> ->.
    + injection Hfit' as -> ->. destruct Hout as (d & _ & Hd & _). by eexists.
  - intros X' y w X2. apply Hfitted. by eexists.
Qed.

(** * Further properties of the methods *)

(** ** What the methods keep *)

Lemma maintains_ret {A} P (a : A) : maintains P (mret a).
Proof. intros w r w' HP [= <- <-]. done. Qed.

Lemma maintains_raise {A} P e : maintains P (raise (A := A) e).
Proof. intros w r w' HP [= <- <-]. done. Qed.

Lemma maintains_bind {A B} P (m : M A) (f : A → M B) :
  maintains P m → (∀ a, maintains P (f a)) → maintains P (m ≫= f).
Proof.
  intros Hm Hf w r w' HP. unfold mbind, M_bind.
  destruct (m w) as [[a|e] w1] eqn:Hmw.
  - intros Hfa. eapply Hf; [|exact Hfa]. by eapply Hm.
  - intros [= <- <-]. by eapply Hm.
Qed.

Lemma maintains_get_self P : maintains P get_self.
Proof. intros w r w' HP [= <- <-]. done. Qed.

Lemma maintains_emit P e : maintains P (emit e).
Proof. intros w r w' HP [= <- <-]. done. Qed.

Lemma maintains_draw {A} P (f : rng → A * rng) : maintains P (draw f).
Proof.
  intros w r w' HP. unfold draw. destruct (f (random w)).
  intros [= <- <-]. done.
Qed.

Lemma maintains_modify_self P f :
  (∀ s, P s → P (f s)) → maintains P (modify_self f).
Proof. intros Hf w r w' HP [= <- <-]. simpl. by apply Hf. Qed.

Lemma maintains_attr {A} P (a : SO_GAAL → option A) : maintains P (attr a).
Proof.
  apply maintains_bind; [apply maintains_get_self|]. intros s.
  destruct (a s); [apply maintains_ret|apply maintains_raise].
Qed.

Lemma maintains_for_in {A L R} P (xs : list A) (body : A → L → M (flow L R)) l :
  (∀ x l, maintains P (body x l)) → maintains P (for_in xs body l).
Proof.
  intros Hbody. revert l. induction xs as [|x xs IH]; intros l; simpl.
  - apply maintains_ret.
  - apply maintains_bind; [apply Hbody|]. intros [l'|v]; [apply IH|].
    apply maintains_ret.
Qed.

(** One step of a proof that a body maintains a property. *)
Ltac maintains_step :=
  lazymatch goal with
  | |- maintains _ (_ ≫= _) => apply maintains_bind; [|intros ?]
  | |- maintains _ (mret _) => apply maintains_ret
  | |- maintains _ (raise _) => apply maintains_raise
  | |- maintains _ get_self => apply maintains_get_self
  | |- maintains _ (emit _) => apply maintains_emit
  | |- maintains _ (draw _) => apply maintains_draw
  | |- maintains _ (attr _) => apply maintains_attr
  | |- maintains _ (for_in _ _ _) => apply maintains_for_in; intros ? ?
  | |- maintains _ (let '(_, _) := ?p in _) => destruct p
  | |- maintains _ (if ?c then _ else _) => destruct c
  | |- maintains _ (match ?c with Some _ => _ | None => _ end) => destruct c
  | |- maintains _ (match ?c with Continue _ => _ | Return _ => _ end) =>
      destruct c
  end.

Lemma fit_maintains P X y :
  kept_by_assignments P → maintains P (fit X y).
Proof.
  intros HP.
  assert (∀ f, (∀ s, P s → P (f s)) → maintains P (modify_self f)) as Hmod
    by (intros f; apply maintains_modify_self).
  unfold fit, check_array_, _set_n_classes, create_discriminator,
    create_generator, epoch_body, epoch_training, int_div, batch_body,
    np_random_uniform, generator_predict, discriminator_train_on_batch,
    history_append, train_generator, combine_train_on_batch, combine_evaluate,
    discriminator_predict, _process_decision_scores.
  repeat first
    [ maintains_step
    | apply Hmod; intros s0 Hs0; by apply (HP s0 Hs0)
    | progress unfold history_append ].
Qed.

Lemma decision_function_maintains P X : maintains P (decision_function X).
Proof.
  unfold decision_function, check_is_fitted, check_array_,
    discriminator_predict.
  repeat maintains_step.
Qed.

(** X1: when [check_array] refuses the argument of [fit], the
    [ValueError] of the validation leaves [fit] and nothing has happened:
    the instance, the random source and the trace are as they were, so
    what an earlier [fit] left is still there.  And the division of [fit]
    is never by zero: for an array that [check_array] accepts the batch
    size is at least 1, and the number of batches is computed, and is at
    least 1. *)
Theorem fit_refused_array_changes_nothing X y w :
  (check_array X = None → fit X y w = (Raise ValueError, w)) ∧
  (∀ X' w0,
     check_array X = Some X' →
     1 ≤ min 500 (length X') ∧
     ∃ num_batches,
       int_div (length X') (min 500 (length X')) w0
         = (Normal num_batches, w0) ∧
       1 ≤ num_batches).
Proof.
  split; [apply fit_invalid|]. intros X' w0 HX.
  pose proof (check_array_nonempty _ _ HX) as Hne.
  assert (1 ≤ length X') as Hn by (destruct X'; simpl; [done|lia]).
  split; [lia|]. exists (length X' / min 500 (length X')).
  unfold int_div. rewrite decide_False by lia.
  split; [done|]. apply Nat.div_str_pos. lia.
Qed.

(** X2: [fit] never changes the arguments of the constructor
    ([stop_epochs], [lr_d], [lr_g], [decay], [momentum],
    [contamination]), however it ends. *)
Theorem fit_keeps_hyperparameters X y w :
  hyperparameters (self (fit X y w).2) = hyperparameters (self w).
Proof.
  destruct (fit X y w) as [r w'] eqn:Hfit. simpl.
  eapply (fit_maintains (λ s, hyperparameters s = hyperparameters (self w)));
    [|reflexivity|exact Hfit].
  intros s Hs. repeat split; intros v; exact Hs.
Qed.

(** X3: [decision_function] never changes the instance, however it ends,
    and whatever the instance holds. *)
Theorem decision_function_keeps_instance X w :
  self (decision_function X w).2 = self w.
Proof.
  destruct (decision_function X w) as [r w'] eqn:Hdf. simpl.
  by eapply (decision_function_maintains (λ s, s = self w)).
Qed.

(** After a [fit] that returned, [self] or [None], the discriminator is
    there, with the layers for the validated array. *)
Lemma fit_leaves_discriminator X y w r w' :
  fit X y w = (Normal r, w') →
  ∃ X' d, check_array X = Some X' ∧ discriminator (self w') = Some d ∧
    model_layers d = discriminator_layers (shape1 X') (length X').
Proof.
  intros Hfit. destruct (check_array X) as [X'|] eqn:HX.
  - destruct (decide (stop_epochs (self w) ≤ 0)%Z) as [Hstop|Hstop].
    + destruct (fit_no_epoch X y w X' HX Hstop)
        as (r1 & w1 & Hfit1 & _ & _ & _ & _ & d & Hd & Hdl).
      rewrite Hfit in Hfit1. injection Hfit1 as -> ->. by exists X', d.
    + destruct (fit_first_epoch X y w X' HX)
        as (r1 & w1 & Hfit1 & _ & d & evs & Hd & Hdl & _); [lia|].
      rewrite Hfit in Hfit1. injection Hfit1 as -> ->. by exists X', d.
  - by rewrite (fit_invalid X y w HX) in Hfit.
Qed.

(** X4: once [fit] has returned, [decision_function] scores other
    arrays than the training one: on an array that [check_array] accepts
    and whose rows have the width of the training array, it returns one
    row of one score per row of the validated array, adds the one call of
    [discriminator.predict] to the trace and leaves the instance and the
    random source alone; on one that [check_array] refuses it raises the
    [ValueError] and nothing has happened. *)
Theorem decision_function_scores_same_width X y w r w' X' X2 :
  fit X y w = (Normal r, w') → check_array X = Some X' →
  match check_array X2 with
  | None => decision_function X2 w' = (Raise ValueError, w')
  | Some X2' =>
      Forall (λ row, length row = shape1 X') X2' →
      ∃ scores w'',
        decision_function X2 w' = (Normal scores, w'') ∧
        length scores = length X2' ∧
        Forall (λ row, length row = 1) scores ∧
        self w'' = self w' ∧ random w'' = random w' ∧
        trace w'' = trace w' ++ [Discriminator_predict X2']
  end.
Proof.
  intros Hfit HX.
  destruct (fit_leaves_discriminator X y w r w' Hfit)
    as (X1 & d & HX1 & Hd & Hdl).
  rewrite HX in HX1. injection HX1 as <-.
  destruct (check_array X2) as [X2'|] eqn:HX2.
  - intros _. eexists _, _. split; [by apply decision_function_run|].
    split; [apply predict_rows|]. split; [|done].
    rewrite <- (discriminator_output_units (shape1 X') (length X')), <- Hdl.
    apply predict_cols.
  - unfold decision_function, check_is_fitted, check_array_, get_self,
      mbind, M_bind, mret, M_ret.
    simpl. by rewrite Hd, HX2.
Qed.

(** ** The width of the hidden layer *)

Lemma math_ceil_sqrt_mono n m : n ≤ m → math_ceil_sqrt n ≤ math_ceil_sqrt m.
Proof.
  intros Hnm. apply (proj2 (math_ceil_sqrt_least n)).
  pose proof (proj1 (math_ceil_sqrt_least m)). lia.
Qed.

(** X5: the hidden layer of the discriminator that [fit] builds has at
    least one unit and at most as many units as there are samples, and
    its width is the least [v] with [n_samples <= v * v].  ([fit] builds
    it for every array that [check_array] accepts, also when no epoch
    runs.) *)
Theorem fit_hidden_layer_width X y w r w' :
  fit X y w = (Normal r, w') →
  ∃ X' d hidden output,
    check_array X = Some X' ∧
    discriminator (self w') = Some d ∧
    model_layers d = [hidden; output] ∧
    input_dim hidden = Some (shape1 X') ∧
    1 ≤ units hidden ≤ length X' ∧
    length X' ≤ units hidden * units hidden ∧
    (units hidden - 1) * (units hidden - 1) < length X'.
Proof.
  intros Hfit.
  destruct (fit_leaves_discriminator X y w r w' Hfit)
    as (X' & d & HX & Hd & Hdl).
  pose proof (check_array_nonempty _ _ HX) as Hne.
  assert (1 ≤ length X') as Hn by (destruct X'; simpl; [done|lia]).
  pose proof (math_ceil_sqrt_least (length X')) as [Hup Hleast].
  assert (1 ≤ math_ceil_sqrt (length X')) as Hpos.
  { destruct (math_ceil_sqrt (length X')); lia. }
  eexists X', d, _, _. split; [done|]. split; [done|].
  split; [exact Hdl|]. simpl.
  split; [done|]. split.
  { split; [done|]. apply Hleast. nia. }
  split; [done|].
  destruct (decide ((math_ceil_sqrt (length X') - 1)
              * (math_ceil_sqrt (length X') - 1) < length X')); [done|].
  specialize (Hleast (math_ceil_sqrt (length X') - 1)). lia.
Qed.

(** ** The training history *)

Lemma wp_conj {A} (m : M A) (Q1 Q2 : A → world → Prop) w :
  wp m Q1 w → wp m Q2 w → wp m (λ a w', Q1 a w' ∧ Q2 a w') w.
Proof.
  intros (a & w1 & Hm & HQ1) (a' & w2 & Hm' & HQ2).
  rewrite Hm in Hm'. injection Hm' as <- <-. by exists a, w1.
Qed.

Lemma history_grown_append k h w1 dl gl :
  train_history (self w1) =
    Some (<["generator_loss" :=
              default [] ((<["discriminator_loss" :=
                               default [] (h !! "discriminator_loss") ++ [dl]]> h)
                          !! "generator_loss") ++ [gl]]>
            (<["discriminator_loss" :=
                 default [] (h !! "discriminator_loss") ++ [dl]]> h)) →
  k = 1 → history_grown k h w1.
Proof.
  intros Hh ->. eexists. split; [exact Hh|]. unfold series.
  split; [|split].
  - rewrite lookup_insert_ne, lookup_insert_eq by done. simpl.
    by rewrite length_app.
  - rewrite lookup_insert_eq, lookup_insert_ne by done. simpl.
    by rewrite length_app.
  - intros key Hd Hg. by rewrite !lookup_insert_ne.
Qed.

Lemma batch_body_history X latent_size batch_size epoch stop index w h :
  ready w → train_history (self w) = Some h →
  wp (batch_body X latent_size batch_size epoch stop index)
     (λ _ w', history_grown 1 h w') w.
Proof.
  destruct w as [s r tr]. intros ([d Hd]&[g Hg]&[c Hc]&[h0 Hh0]) Hh.
  simpl in *. rewrite Hh in Hh0. injection Hh0 as <-.
  unfold batch_body, np_random_uniform, generator_predict,
    discriminator_train_on_batch, history_append.
  wp_steps.
  destruct (train_on_batch _ _ _) as [net loss].
  wp_steps.
  unfold train_generator.
  destruct (decide (stop = 0)%Z) as [Hstop|Hstop].
  - unfold combine_train_on_batch, history_append. wp_steps.
    destruct (combined_train_on_batch _ _ _ _ _) as [[c' net'] loss'].
    wp_steps. by eapply history_grown_append.
  - unfold combine_evaluate, history_append. wp_steps.
    by eapply history_grown_append.
Qed.

Lemma history_grown_trans k1 k2 h h1 w1 w2 :
  train_history (self w1) = Some h1 →
  history_grown k1 h w1 → history_grown k2 h1 w2 →
  history_grown (k1 + k2) h w2.
Proof.
  intros Hh1 (h1' & Hh1' & Hd1 & Hg1 & Ho1) (h2 & Hh2 & Hd2 & Hg2 & Ho2).
  rewrite Hh1 in Hh1'. injection Hh1' as <-.
  exists h2. split; [done|]. split; [lia|]. split; [lia|].
  intros key Hd Hg. by rewrite Ho2, Ho1.
Qed.

Lemma batch_loop_history X latent_size batch_size epoch stop idxs w h glayers :
  ready w → train_history (self w) = Some h →
  model_layers <$> generator (self w) = Some glayers →
  wp (for_in idxs
        (λ index (_ : unit),
           batch_body X latent_size batch_size epoch stop index;;
           mret (Continue (R := Empty_set) ()))
        ())
     (λ _ w', history_grown (length idxs) h w') w.
Proof.
  revert w h. induction idxs as [|index idxs IH]; intros w h Hready Hh Hgl; simpl.
  - apply wp_ret. exists h. split; [done|]. split; [lia|]. split; [lia|done].
  - do 2 apply wp_bind.
    eapply wp_mono.
    { apply wp_conj; [by apply batch_body_run|by apply batch_body_history]. }
    intros [] w1 ((Hready1 & Hpres1 & _) & Hgrown1). simpl.
    apply wp_ret.
    assert (model_layers <$> generator (self w1) = Some glayers) as Hgl1.
    { destruct Hpres1 as (_&_&_&_&->). done. }
    pose proof Hgrown1 as (h1 & Hh1 & _).
    eapply wp_mono; [by apply (IH w1 h1)|].
    intros o w2 Hgrown2. simpl.
    change (S (length idxs)) with (1 + length idxs).
    by eapply history_grown_trans.
Qed.

Lemma epoch_body_history X latent_size epochs epoch stop w h glayers :
  ready w → X ≠ [] → train_history (self w) = Some h →
  model_layers <$> generator (self w) = Some glayers →
  wp (epoch_body X latent_size (length X) epochs epoch stop)
     (λ _ w', history_grown (length X / min 500 (length X)) h w') w.
Proof.
  intros Hready HX Hh Hgl. unfold epoch_body, epoch_training, int_div.
  rewrite decide_False by (destruct X; simpl; [done|lia]).
  wp_steps. rewrite range_of_nat.
  eapply wp_mono.
  { apply wp_conj.
    - apply batch_loop_run; [|exact Hgl]. destruct Hready as (?&?&?&?). done.
    - apply batch_loop_history with (h := h) (glayers := glayers); [|done..].
      destruct Hready as (?&?&?&?). done. }
  intros _ w1 ((Hready1 & _) & Hgrown). simpl in *.
  destruct Hready1 as ([d Hd] & _).
  unfold discriminator_predict, _process_decision_scores.
  wp_steps. rewrite length_seq in Hgrown.
  destruct Hgrown as (h' & Hh' & Hgrown). by exists h'.
Qed.

Lemma fit_history_first_epoch X y w X' :
  check_array X = Some X' → (1 ≤ stop_epochs (self w))%Z →
  wp (fit X y)
     (λ _ w', history_grown (length X' / min 500 (length X')) ∅ w') w.
Proof.
  intros HX Hstop. pose proof (check_array_nonempty _ _ HX) as Hne.
  unfold fit, check_array_. rewrite HX.
  unfold _set_n_classes, create_discriminator, create_generator.
  wp_steps.
  destruct (range_pos (stop_epochs (self w) * 3)) as [rest ->]; [lia|].
  simpl. apply wp_bind.
  eapply wp_mono.
  { unfold shape0. apply wp_conj.
    - apply epoch_body_run with (glayers := generator_layers (shape1 X'));
        [by repeat split|done|done].
    - apply epoch_body_history
        with (h := ∅) (glayers := generator_layers (shape1 X'));
        [by repeat split|done..]. }
  intros o w1 [[-> _] Hgrown]. simpl. by wp_steps.
Qed.

Lemma fit_history_no_epoch X y w X' :
  check_array X = Some X' → (stop_epochs (self w) ≤ 0)%Z →
  wp (fit X y) (λ _ w', train_history (self w') = Some ∅) w.
Proof.
  intros HX Hstop. unfold fit, check_array_. rewrite HX.
  unfold _set_n_classes, create_discriminator, create_generator.
  wp_steps. rewrite range_nonpos by lia. simpl. by wp_steps.
Qed.

(** X6: [fit] starts a new training history and records one loss of the
    discriminator and one loss of the generator per executed batch: on an
    array that [check_array] accepts, the history it leaves has
    [num_batches] entries under ['discriminator_loss'], as many under
    ['generator_loss'] and no other key when [stop_epochs >= 1], and is
    empty when [stop_epochs <= 0] -- whatever history the instance held
    before. *)
Theorem fit_history_lengths X y w :
  match check_array X with
  | None => fit X y w = (Raise ValueError, w)
  | Some X' =>
      let num_batches := length X' / min 500 (length X') in
      ∃ r w' h,
        fit X y w = (Normal r, w') ∧
        train_history (self w') = Some h ∧
        if decide (1 ≤ stop_epochs (self w))%Z then
          length (series "discriminator_loss" h) = num_batches ∧
          length (series "generator_loss" h) = num_batches ∧
          1 ≤ num_batches ∧
          ∀ key, key ≠ "discriminator_loss" → key ≠ "generator_loss" →
            h !! key = None
        else h = ∅
  end.
Proof.
  destruct (check_array X) as [X'|] eqn:HX; [|by apply fit_invalid]. simpl.
  destruct (decide (1 ≤ stop_epochs (self w))%Z) as [Hstop|Hstop].
  - destruct (fit_history_first_epoch X y w X' HX Hstop)
      as (r & w' & Hfit & h & Hh & Hd & Hg & Ho).
    exists r, w', h. split; [done|]. split; [done|].
    unfold series in Hd, Hg. rewrite lookup_empty in Hd, Hg. simpl in Hd, Hg.
    split; [done|]. split; [done|]. split.
    + pose proof (check_array_nonempty _ _ HX) as Hne.
      assert (1 ≤ length X') by (destruct X'; simpl; [done|lia]).
      apply Nat.div_str_pos. lia.
    + intros key Hkd Hkg. by rewrite Ho.
  - destruct (fit_history_no_epoch X y w X' HX)
      as (r & w' & Hfit & Hh); [lia|].
    by exists r, w', ∅.
Qed.

(** ** The calls of a batch *)

Lemma generator_output_units latent_size :
  output_units (generator_layers latent_size) = latent_size.
Proof. done. Qed.

(** X7: the calls of a run of [fit] that trains, in order.  After the
    line of epoch 1, each batch prints its line, draws a noise matrix of
    [batch_size] rows and [n_features] columns, has the generator predict
    on it, trains the discriminator on the real rows followed by the
    [batch_size] generated rows, which have [n_features] entries each,
    and trains the combined model on the very noise the generated rows
    were made from, with [batch_size] ones as targets; the run ends with
    the prediction on the whole array and the score-processing hook. *)
Theorem fit_call_sequence X y w X' :
  check_array X = Some X' → (1 ≤ stop_epochs (self w))%Z →
  let n_features := shape1 X' in
  let batch_size := min 500 (length X') in
  let num_batches := length X' / batch_size in
  ∃ w' evs,
    fit X y w = (Normal Self, w') ∧
    trace w' =
      trace w ++ Print_epoch 1 (stop_epochs (self w) * 3) :: concat evs ++
        [Discriminator_predict X'; Process_decision_scores] ∧
    Forall2 (λ index ev,
      ∃ noise generated_data,
        length noise = batch_size ∧
        length generated_data = batch_size ∧
        Forall (λ row, length row = n_features) generated_data ∧
        ev = [ Print_testing 1 (index + 1);
               Random_uniform batch_size n_features;
               Generator_predict noise;
               Discriminator_train_on_batch
                 (data_batch X' batch_size index ++ generated_data)
                 (py_repeat 1 batch_size ++ py_repeat 0 batch_size);
               Combine_train_on_batch noise (py_repeat 1 batch_size) ])
      (seq 0 num_batches) evs.
Proof.
  intros HX Hstop. simpl.
  destruct (fit_first_epoch X y w X' HX Hstop)
    as (r & w' & Hfit & -> & d & evs & _ & _ & _ & _ & Htr & Hevs).
  exists w', evs. split; [done|]. split; [done|].
  eapply Forall2_impl; [exact Hevs|].
  intros index ev (noise & g & Hn & ->). simpl.
  exists noise, (predict (generator_layers (shape1 X')) g noise).
  split; [done|]. split; [by rewrite predict_rows|]. split; [|done].
  pose proof (predict_cols (generator_layers (shape1 X')) g noise) as Hcols.
  by rewrite generator_output_units in Hcols.
Qed.

Lemma discriminator_batches_of_run a b training X0 :
  discriminator_batches
    (Print_epoch a b :: training ++
       [Discriminator_predict X0; Process_decision_scores])
  = discriminator_batches training.
Proof.
  unfold discriminator_batches.
  change (Print_epoch a b :: training ++ [Discriminator_predict X0; Process_decision_scores])
    with ([Print_epoch a b] ++ training ++
            [Discriminator_predict X0; Process_decision_scores]).
  rewrite !omap_app. simpl. by rewrite app_nil_r.
Qed.

Lemma batches_executed_of_run a b training X0 :
  batches_executed
    (Print_epoch a b :: training ++
       [Discriminator_predict X0; Process_decision_scores])
  = batches_executed training.
Proof.
  unfold batches_executed.
  change (Print_epoch a b :: training ++ [Discriminator_predict X0; Process_decision_scores])
    with ([Print_epoch a b] ++ training ++
            [Discriminator_predict X0; Process_decision_scores]).
  rewrite !omap_app. simpl. by rewrite app_nil_r.
Qed.

(** ** How much of the array is trained on *)

(** X8: with at most 500 samples, a run of [fit] that trains has one
    batch, and its real half is the whole validated array: the
    discriminator is trained once, on all the samples followed by as many
    generated rows, labelled 1 and 0. *)
Theorem fit_small_array_single_batch X y w X' :
  check_array X = Some X' → (1 ≤ stop_epochs (self w))%Z →
  length X' ≤ 500 →
  ∃ w' new generated_data,
    fit X y w = (Normal Self, w') ∧
    trace w' = trace w ++ new ∧
    batches_executed new = [(0, 0)] ∧
    length generated_data = length X' ∧
    discriminator_batches new =
      [(X' ++ generated_data,
        py_repeat 1 (length X') ++ py_repeat 0 (length X'))].
Proof.
  intros HX Hstop Hsmall.
  pose proof (check_array_nonempty _ _ HX) as Hne.
  assert (1 ≤ length X') as Hn by (destruct X'; simpl; [done|lia]).
  destruct (fit_first_epoch X y w X' HX Hstop)
    as (r & w' & Hfit & -> & Hout).
  destruct (fit_outcome_training _ _ _ Hout)
    as (training & Htr & _ & Hbat & _ & _ & Hdis).
  replace (min 500 (length X')) with (length X') in Hbat, Hdis by lia.
  rewrite Nat.div_same in Hbat, Hdis by lia. simpl in Hbat, Hdis.
  apply Forall2_cons_inv_l in Hdis
    as (b & rest & (noise & g & Hnoise & ->) & Hrest & Hdb).
  apply Forall2_nil_inv_l in Hrest as ->.
  eexists w', _, (predict (generator_layers (shape1 X')) g noise).
  split; [done|]. split; [exact Htr|].
  rewrite batches_executed_of_run, discriminator_batches_of_run, Hbat, Hdb.
  split; [done|]. split; [by rewrite predict_rows|].
  rewrite data_batch_take_drop. simpl. by rewrite take_ge.
Qed.

(** X9: a run of [fit] that trains executes at least one batch; its
    batches have at most 500 rows, and the rows they leave out at the end
    of the array are fewer than one batch, so fewer than the rows trained
    on. *)
Theorem fit_trains_on_most_rows X y w X' :
  check_array X = Some X' → (1 ≤ stop_epochs (self w))%Z →
  let batch_size := min 500 (length X') in
  let num_batches := length X' / batch_size in
  ∃ w' new,
    fit X y w = (Normal Self, w') ∧
    trace w' = trace w ++ new ∧
    length (batches_executed new) = num_batches ∧
    length (discriminator_batches new) = num_batches ∧
    1 ≤ num_batches ∧
    1 ≤ batch_size ≤ 500 ∧
    num_batches * batch_size ≤ length X' ∧
    length X' - num_batches * batch_size < batch_size ∧
    length X' - num_batches * batch_size < num_batches * batch_size.
Proof.
  intros HX Hstop. simpl.
  pose proof (check_array_nonempty _ _ HX) as Hne.
  assert (1 ≤ length X') as Hn by (destruct X'; simpl; [done|lia]).
  destruct (fit_first_epoch X y w X' HX Hstop)
    as (r & w' & Hfit & -> & Hout).
  destruct (fit_outcome_training _ _ _ Hout)
    as (training & Htr & _ & Hbat & _ & _ & Hdis).
  eexists w', _. split; [done|]. split; [exact Htr|].
  rewrite batches_executed_of_run, discriminator_batches_of_run, Hbat.
  rewrite length_fmap, length_seq.
  apply Forall2_length in Hdis. rewrite length_seq in Hdis.
  split; [done|]. split; [done|].
  assert (1 ≤ length X' / min 500 (length X')) as Hnb
    by (apply Nat.div_str_pos; lia).
  pose proof (Nat.div_mod_eq (length X') (min 500 (length X'))) as Hdm.
  pose proof (Nat.mod_upper_bound (length X') (min 500 (length X'))) as Hmod.
  split; [done|]. split; [lia|]. nia.
Qed.

(** ** What [fit] depends on *)

Lemma wp_bind_inv {A B} (m : M A) (f : A → M B) Q w :
  wp (m ≫= f) Q w → wp m (λ a w', wp (f a) Q w') w.
Proof.
  intros (b & w2 & Hmf & HQ). unfold mbind, M_bind in Hmf.
  destruct (m w) as [[a|e] w1] eqn:Hm; [|done].
  exists a, w1. split; [done|]. by exists b, w2.
Qed.

Lemma fit_via_setup X y w X' Q :
  check_array X = Some X' →
  wp (o ← for_in (range (stop_epochs (self w) * 3))
            (epoch_body X' (shape1 X') (shape0 X') (stop_epochs (self w) * 3))
            initial_stop;
      match o with
      | Return v => mret v
      | Continue _ => mret PyNone
      end) Q (setup_world X' y w) →
  wp (fit X y) Q w.
Proof.
  intros HX Hloop. unfold fit, check_array_. rewrite HX.
  unfold _set_n_classes, create_discriminator, create_generator.
  wp_steps. apply wp_bind_inv in Hloop. exact Hloop.
Qed.

Lemma setup_world_ready X y w : ready (setup_world X y w).
Proof. repeat split; by eexists. Qed.

Lemma fit_from_setup X y w X' :
  check_array X = Some X' →
  fit X y w =
    (o ← for_in (range (stop_epochs (self w) * 3))
           (epoch_body X' (shape1 X') (shape0 X') (stop_epochs (self w) * 3))
           initial_stop;
     match o with
     | Return v => mret v
     | Continue _ => mret PyNone
     end) (setup_world X' y w).
Proof.
  intros HX.
  assert (wp (o ← for_in (range (stop_epochs (self w) * 3))
                    (epoch_body X' (shape1 X') (shape0 X')
                       (stop_epochs (self w) * 3))
                    initial_stop;
              match o with
              | Return v => mret v
              | Continue _ => mret PyNone
              end) (λ _ _, True) (setup_world X' y w))
    as (r & w' & Hloop & _).
  { destruct (decide (stop_epochs (self w) ≤ 0)%Z) as [Hstop|Hstop].
    - rewrite range_nonpos by lia. simpl. by wp_steps.
    - destruct (range_pos (stop_epochs (self w) * 3)) as [rest ->]; [lia|].
      simpl. apply wp_bind. apply wp_bind.
      eapply wp_mono.
      { unfold shape0.
        apply epoch_body_run with (glayers := generator_layers (shape1 X'));
          [apply setup_world_ready|by eapply check_array_nonempty|done]. }
      intros o w1 [-> _]. simpl. by wp_steps. }
  destruct (fit_via_setup X y w X' (λ a w'', a = r ∧ w'' = w') HX)
    as (a & w'' & Hfit & -> & ->).
  { by exists r, w'. }
  by rewrite Hfit, Hloop.
Qed.

Lemma in_step_ret {A} t1 t2 (a : A) : keeps_in_step t1 t2 (mret a).
Proof. intros w1 w2 a' w1' Hstep [= <- <-]. by exists w2. Qed.

Lemma in_step_bind {A B} t1 t2 (m : M A) (f : A → M B) :
  keeps_in_step t1 t2 m → (∀ a, keeps_in_step t1 t2 (f a)) →
  keeps_in_step t1 t2 (m ≫= f).
Proof.
  intros Hm Hf w1 w2 b w1' Hstep. unfold mbind, M_bind.
  destruct (m w1) as [[a|e] w1m] eqn:Hm1; [|done]. intros Hf1.
  destruct (Hm w1 w2 a w1m Hstep Hm1) as (w2m & -> & Hstepm).
  by apply (Hf a w1m w2m).
Qed.

Lemma in_step_emit t1 t2 e : keeps_in_step t1 t2 (emit e).
Proof.
  intros w1 w2 a w1' (Hs & Hr & tr & Ht1 & Ht2) [= <- <-].
  eexists. split; [reflexivity|]. split; [done|]. split; [done|].
  exists (tr ++ [e]). simpl. by rewrite Ht1, Ht2, !app_assoc.
Qed.

Lemma in_step_draw {A} t1 t2 (f : rng → A * rng) :
  keeps_in_step t1 t2 (draw f).
Proof.
  intros w1 w2 a w1' (Hs & Hr & Htr). unfold draw. rewrite <- Hr.
  destruct (f (random w1)) as [a' r]. intros [= <- <-].
  eexists. split; [reflexivity|]. by repeat split.
Qed.

Lemma in_step_attr {A} t1 t2 (a : SO_GAAL → option A) :
  (∀ s, a s = a (without_scores s)) → keeps_in_step t1 t2 (attr a).
Proof.
  intros Ha w1 w2 v w1' Hstep. pose proof Hstep as (Hs & _).
  unfold attr, get_self, mbind, M_bind. simpl.
  rewrite (Ha (self w1)), (Ha (self w2)), Hs.
  destruct (a (without_scores (self w2))); [|done].
  intros [= <- <-]. by exists w2.
Qed.

Lemma in_step_modify_self t1 t2 f :
  (∀ s, without_scores (f s) = f (without_scores s)) →
  keeps_in_step t1 t2 (modify_self f).
Proof.
  intros Hf w1 w2 a w1' (Hs & Hr & Htr) [= <- <-].
  eexists. split; [reflexivity|]. split; [|done]. simpl.
  by rewrite !Hf, Hs.
Qed.

Lemma in_step_get_self {B} t1 t2 (f : SO_GAAL → M B) :
  (∀ s, f s = f (without_scores s)) → (∀ s, keeps_in_step t1 t2 (f s)) →
  keeps_in_step t1 t2 (get_self ≫= f).
Proof.
  intros Hf Hkeep w1 w2 b w1' Hstep. pose proof Hstep as (Hs & _).
  unfold mbind, M_bind, get_self. rewrite (Hf (self w1)), (Hf (self w2)), Hs.
  by apply Hkeep.
Qed.

Lemma in_step_for_in {A L R} t1 t2 (xs : list A)
    (body : A → L → M (flow L R)) l :
  (∀ x l, keeps_in_step t1 t2 (body x l)) →
  keeps_in_step t1 t2 (for_in xs body l).
Proof.
  intros Hbody. revert l. induction xs as [|x xs IH]; intros l; simpl.
  - apply in_step_ret.
  - apply in_step_bind; [apply Hbody|]. intros [l'|v]; [apply IH|].
    apply in_step_ret.
Qed.

(** One step of a proof that a body keeps two runs in step. *)
Ltac in_step_step :=
  lazymatch goal with
  | |- keeps_in_step _ _ (get_self ≫= _) =>
      apply in_step_get_self; [intros ?; reflexivity|intros ?]
  | |- keeps_in_step _ _ (_ ≫= _) => apply in_step_bind; [|intros ?]
  | |- keeps_in_step _ _ (mret _) => apply in_step_ret
  | |- keeps_in_step _ _ (emit _) => apply in_step_emit
  | |- keeps_in_step _ _ (draw _) => apply in_step_draw
  | |- keeps_in_step _ _ (attr _) => apply in_step_attr; intros ?; reflexivity
  | |- keeps_in_step _ _ (modify_self _) =>
      apply in_step_modify_self; intros ?; reflexivity
  | |- keeps_in_step _ _ (for_in _ _ _) => apply in_step_for_in; intros ? ?
  | |- keeps_in_step _ _ (let '(_, _) := ?p in _) => destruct p
  | |- keeps_in_step _ _ (if ?c then _ else _) => destruct c
  end.

Lemma epoch_training_in_step t1 t2 X latent_size data_size epochs epoch stop :
  data_size ≠ 0 →
  keeps_in_step t1 t2
    (epoch_training X latent_size data_size epochs epoch stop).
Proof.
  intros Hsize.
  unfold epoch_training, int_div, batch_body, np_random_uniform,
    generator_predict, discriminator_train_on_batch, train_generator,
    combine_train_on_batch, combine_evaluate.
  rewrite decide_False by lia.
  repeat first [ in_step_step | progress unfold history_append ].
Qed.

Lemma detection_run (X : matrix) w d :
  discriminator (self w) = Some d →
  wp (scores ← discriminator_predict X;
      modify_self (set_decision_scores_ scores);;
      _process_decision_scores;;
      mret (Return (L := Z) Self))
     (λ o w', o = Return Self ∧
        without_scores (self w') = without_scores (self w) ∧
        random w' = random w ∧
        trace w' =
          trace w ++ [Discriminator_predict X; Process_decision_scores]) w.
Proof.
  intros Hd. unfold discriminator_predict, _process_decision_scores.
  wp_steps. repeat split. by rewrite <- app_assoc.
Qed.

Lemma discriminator_without_scores s1 s2 :
  without_scores s1 = without_scores s2 → discriminator s1 = discriminator s2.
Proof.
  intros Hs. change (discriminator (without_scores s1)
                     = discriminator (without_scores s2)). by rewrite Hs.
Qed.

Lemma epoch_body_in_step t1 t2 X latent_size data_size epochs epoch stop :
  data_size ≠ 0 →
  keeps_in_step t1 t2 (epoch_body X latent_size data_size epochs epoch stop).
Proof.
  intros Hsize. unfold epoch_body.
  apply in_step_bind; [by apply epoch_training_in_step|]. intros stop'.
  intros w1 w2 o w1' Hstep Hrun1.
  pose proof Hstep as (Hs & Hr & tr & Ht1 & Ht2).
  destruct (discriminator (self w1)) as [d|] eqn:Hd1.
  - assert (discriminator (self w2) = Some d) as Hd2
      by by rewrite <- (discriminator_without_scores _ _ Hs).
    destruct (detection_run X w1 d Hd1)
      as (o1 & w1o & Hrun1' & -> & Hs1 & Hr1 & Htr1).
    destruct (detection_run X w2 d Hd2)
      as (o2 & w2o & Hrun2 & -> & Hs2 & Hr2 & Htr2).
    rewrite Hrun1 in Hrun1'. injection Hrun1' as -> ->.
    exists w2o. split; [exact Hrun2|].
    split; [by rewrite Hs1, Hs2|]. split; [by rewrite Hr1, Hr2|].
    exists (tr ++ [Discriminator_predict X; Process_decision_scores]).
    by rewrite Htr1, Htr2, Ht1, Ht2, !app_assoc.
  - exfalso. revert Hrun1.
    unfold discriminator_predict, attr, get_self, mbind, M_bind.
    simpl. by rewrite Hd1.
Qed.

Lemma setup_world_in_step X y w1 w2 :
  hyperparameters (self w1) = hyperparameters (self w2) →
  random w1 = random w2 →
  in_step (trace w1) (trace w2) (setup_world X y w1) (setup_world X y w2).
Proof.
  intros Hh Hr. unfold hyperparameters in Hh.
  injection Hh as Hse Hld Hlg Hde Hmo Hco.
  split; [|split].
  - unfold setup_world, without_scores. rewrite Hr. simpl.
    by rewrite Hse, Hld, Hlg, Hde, Hmo, Hco.
  - unfold setup_world. simpl. by rewrite Hr.
  - exists []. simpl. by rewrite !app_nil_r.
Qed.

Lemma instance_eq s1 s2 :
  without_scores s1 = without_scores s2 →
  decision_scores_ s1 = decision_scores_ s2 →
  processed s1 = processed s2 → s1 = s2.
Proof.
  destruct s1, s2. unfold without_scores. simpl.
  intros [= -> -> -> -> -> -> -> -> -> -> ->] -> ->. done.
Qed.

(** X10: [fit] depends on the instance through the arguments of the
    constructor only.  Run on two instances with the same
    hyperparameters, from the same state of the random source, it ends
    the same way, makes the same calls, and leaves the same random state;
    when the array is accepted, the two instances are left with the same
    classes, history, discriminator, generator and combined model,
    whatever an earlier [fit] had left on either of them; and when [fit]
    returns [self] the two instances are equal.  (When it returns [None],
    the scores of an earlier [fit] stay.) *)
Theorem fit_forgets_earlier_fit X y w1 w2 :
  hyperparameters (self w1) = hyperparameters (self w2) →
  random w1 = random w2 →
  ∃ r w1' w2' new,
    fit X y w1 = (r, w1') ∧ fit X y w2 = (r, w2') ∧
    trace w1' = trace w1 ++ new ∧ trace w2' = trace w2 ++ new ∧
    random w1' = random w2' ∧
    (is_Some (check_array X) →
       without_scores (self w1') = without_scores (self w2')) ∧
    (r = Normal Self → self w1' = self w2').
Proof.
  intros Hh Hr. destruct (check_array X) as [X'|] eqn:HX.
  - pose proof (check_array_nonempty _ _ HX) as Hne.
    assert (shape0 X' ≠ 0) as Hsize by (destruct X'; simpl; [done|lia]).
    assert (stop_epochs (self w1) = stop_epochs (self w2)) as Hse
      by (unfold hyperparameters in Hh; by injection Hh).
    assert (contamination (self w1) = contamination (self w2)) as Hco
      by (unfold hyperparameters in Hh; by injection Hh).
    assert (∃ r w1', fit X y w1 = (Normal r, w1')) as (r & w1' & Hfit1).
    { destruct (fit_cases X y w1)
        as [[HX' _]|[(? & w' & _ & _ & Hfit & _)|(? & w' & _ & _ & Hfit & _)]];
        [congruence|by eexists _, _..]. }
    pose proof Hfit1 as Hloop1. rewrite (fit_from_setup X y w1 X' HX) in Hloop1.
    assert (keeps_in_step (trace w1) (trace w2)
              (o ← for_in (range (stop_epochs (self w1) * 3))
                     (epoch_body X' (shape1 X') (shape0 X')
                        (stop_epochs (self w1) * 3))
                     initial_stop;
               match o with
               | Return v => mret v
               | Continue _ => mret PyNone
               end)) as Hkeep.
    { apply in_step_bind.
      - apply in_step_for_in. intros epoch stop. by apply epoch_body_in_step.
      - intros [l|v]; apply in_step_ret. }
    destruct (Hkeep _ _ r w1' (setup_world_in_step X' y w1 w2 Hh Hr) Hloop1)
      as (w2' & Hloop2 & Hs & Hr' & new & Ht1 & Ht2).
    rewrite Hse in Hloop2. rewrite <- (fit_from_setup X y w2 X' HX) in Hloop2.
    exists (Normal r), w1', w2', new. repeat split; try done.
    intros [= ->].
    destruct (fit_cases X y w1)
      as [[HX1 _]|[(? & w' & _ & _ & Hfit & _)|
                   (X1 & w' & HX1 & _ & Hfit & Hout1)]];
      [congruence|congruence|].
    rewrite Hfit1 in Hfit. injection Hfit as <-.
    destruct (fit_cases X y w2)
      as [[HX2 _]|[(? & w' & _ & _ & Hfit & _)|
                   (X2 & w' & HX2 & _ & Hfit & Hout2)]];
      [congruence|congruence|].
    rewrite Hloop2 in Hfit. injection Hfit as <-.
    rewrite HX in HX1, HX2. injection HX1 as <-. injection HX2 as <-.
    destruct Hout1 as (d1 & _ & Hd1 & _ & Hsc1 & Hpr1 & _).
    destruct Hout2 as (d2 & _ & Hd2 & _ & Hsc2 & Hpr2 & _).
    pose proof (discriminator_without_scores _ _ Hs) as Hd.
    rewrite Hd1, Hd2 in Hd. injection Hd as <-.
    apply instance_eq; [done|by rewrite Hsc1, Hsc2|].
    by rewrite Hpr1, Hpr2, Hco.
  - exists (Raise ValueError), w1, w2, [].
    rewrite !fit_invalid, !app_nil_r by done.
    repeat split; try done.
Qed.

(** X11: with [stop_epochs <= 0], [fit] on an accepted array is its
    set-up and nothing more: it returns [None] but leaves a new, empty
    history and a discriminator that is built and compiled and has taken
    no training step, so that the instance passes for fitted:
    [decision_function] then scores an accepted array whose rows have the
    width of the training array with the initial weights. *)
Theorem fit_without_epochs_leaves_untrained_detector X y w X' X2 X2' :
  check_array X = Some X' → (stop_epochs (self w) ≤ 0)%Z →
  check_array X2 = Some X2' →
  Forall (λ row, length row = shape1 X') X2' →
  let layers := discriminator_layers (shape1 X') (length X') in
  let initial :=
    compile {| lr := lr_d (self w); sgd_decay := decay (self w);
               sgd_momentum := momentum (self w) |}
            (build (shape1 X') layers (random w)).1 in
  ∃ w' w'',
    fit X y w = (Normal PyNone, w') ∧
    discriminator (self w') =
      Some {| model_input := shape1 X'; model_layers := layers;
              model_state := initial |} ∧
    train_history (self w') = Some ∅ ∧
    trace w' = trace w ∧
    decision_function X2 w' = (Normal (predict layers initial X2'), w'').
Proof.
  intros HX Hstop HX2 _. simpl.
  exists (setup_world X' y w).
  exists {| self := self (setup_world X' y w);
            random := random (setup_world X' y w);
            trace := trace (setup_world X' y w) ++ [Discriminator_predict X2'] |}.
  split.
  { rewrite (fit_from_setup X y w X' HX), range_nonpos by lia. reflexivity. }
  split; [reflexivity|]. split; [reflexivity|]. split; [reflexivity|].
  by rewrite (decision_function_run X2 X2' _ (setup_world X' y w) eq_refl HX2).
Qed.

(** ** The batch the discriminator is trained on *)

Lemma bind_run {A B} (m : M A) (f : A → M B) w a w' :
  m w = (Normal a, w') → (m ≫= f) w = f a w'.
Proof. intros Hm. unfold mbind, M_bind. by rewrite Hm. Qed.

Lemma batch_body_discriminator_batch X latent_size batch_size epoch stop
    index w g :
  ready w → generator (self w) = Some g →
  wp (batch_body X latent_size batch_size epoch stop index)
     (λ _ w', ∃ ev,
        trace w' = trace w ++ ev ∧
        discriminator_batches ev =
          [(data_batch X batch_size index ++
              predict (model_layers g) (model_state g)
                (random_uniform batch_size latent_size (random w)).1,
            py_repeat 1 batch_size ++ py_repeat 0 batch_size)]) w.
Proof.
  destruct w as [s r tr]. intros ([d Hd]&[g0 Hg0]&[c Hc]&[h Hh]) Hg.
  simpl in *. rewrite Hg in Hg0. injection Hg0 as <-.
  unfold batch_body, np_random_uniform, generator_predict,
    discriminator_train_on_batch, history_append.
  wp_steps.
  destruct (train_on_batch _ _ _) as [net loss].
  wp_steps.
  unfold train_generator.
  destruct (decide (stop = 0)%Z) as [Hstop|Hstop].
  - unfold combine_train_on_batch, history_append. wp_steps.
    destruct (combined_train_on_batch _ _ _ _ _) as [[c' net'] loss'].
    wp_steps. eexists. rewrite <- !app_assoc. simpl. split; reflexivity.
  - unfold combine_evaluate, history_append. wp_steps.
    eexists. rewrite <- !app_assoc. simpl. split; reflexivity.
Qed.

Lemma batch_loop_batches X latent_size batch_size epoch stop idxs w glayers :
  ready w →
  model_layers <$> generator (self w) = Some glayers →
  wp (for_in idxs
        (λ index (_ : unit),
           batch_body X latent_size batch_size epoch stop index;;
           mret (Continue (R := Empty_set) ()))
        ())
     (λ _ w', ∃ ev,
        trace w' = trace w ++ ev ∧
        batches_from X latent_size batch_size epoch stop idxs w
          (discriminator_batches ev)) w.
Proof.
  revert w. induction idxs as [|index idxs IH]; intros w Hready Hgl.
  - apply wp_ret. exists []. rewrite app_nil_r. split; [done|]. constructor.
  - pose proof Hready as (_ & [g Hg] & _).
    destruct (wp_conj _ _ _ _
                (batch_body_run X latent_size batch_size epoch stop index w
                   glayers Hready Hgl)
                (batch_body_discriminator_batch X latent_size batch_size epoch
                   stop index w g Hready Hg))
      as ([] & w1 & Hrun & (Hready1 & Hpres1 & _) & ev1 & Htr1 & Hdb1).
    assert (model_layers <$> generator (self w1) = Some glayers) as Hgl1.
    { destruct Hpres1 as (_&_&_&_&->). done. }
    destruct (IH w1 Hready1 Hgl1) as (o & w2 & Hloop & ev2 & Htr2 & Hchain).
    exists o, w2. split.
    { simpl. rewrite (bind_run _ _ _ _ _ (bind_run _ _ _ _ _ Hrun)).
      exact Hloop. }
    exists (ev1 ++ ev2). split; [by rewrite Htr2, Htr1, app_assoc|].
    unfold discriminator_batches in *. rewrite omap_app, Hdb1. simpl.
    by econstructor.
Qed.

Lemma epoch_body_batches X latent_size epochs epoch stop w glayers :
  ready w → X ≠ [] →
  model_layers <$> generator (self w) = Some glayers →
  wp (epoch_body X latent_size (length X) epochs epoch stop)
     (λ _ w', ∃ training,
        trace w' =
          trace w ++ Print_epoch (epoch + 1) epochs :: training ++
            [Discriminator_predict X; Process_decision_scores] ∧
        batches_from X latent_size (min 500 (length X)) epoch stop
          (seq 0 (length X / min 500 (length X)))
          {| self := self w; random := random w;
             trace := trace w ++ [Print_epoch (epoch + 1) epochs] |}
          (discriminator_batches training)) w.
Proof.
  intros Hready HX Hgl. unfold epoch_body, epoch_training, int_div.
  rewrite decide_False by (destruct X; simpl; [done|lia]).
  wp_steps. rewrite range_of_nat.
  eapply wp_mono.
  { apply wp_conj.
    - apply batch_loop_run; [|exact Hgl]. destruct Hready as (?&?&?&?). done.
    - apply batch_loop_batches with (glayers := glayers); [|done].
      destruct Hready as (?&?&?&?). done. }
  intros _ w1 ((Hready1 & _) & ev & Htr1 & Hchain). simpl in *.
  destruct Hready1 as ([d Hd] & _).
  unfold discriminator_predict, _process_decision_scores.
  wp_steps. exists ev. split; [|done].
  rewrite Htr1, <- !app_assoc. done.
Qed.

Lemma fit_batches_from X y w X' :
  check_array X = Some X' → (1 ≤ stop_epochs (self w))%Z →
  wp (fit X y)
     (λ _ w', ∃ training,
        trace w' =
          trace w ++ Print_epoch 1 (stop_epochs (self w) * 3) :: training ++
            [Discriminator_predict X'; Process_decision_scores] ∧
        batches_from X' (shape1 X') (min 500 (length X')) 0 initial_stop
          (seq 0 (length X' / min 500 (length X')))
          {| self := self (setup_world X' y w);
             random := random (setup_world X' y w);
             trace := trace w ++ [Print_epoch 1 (stop_epochs (self w) * 3)] |}
          (discriminator_batches training)) w.
Proof.
  intros HX Hstop. apply (fit_via_setup X y w X' _ HX).
  destruct (range_pos (stop_epochs (self w) * 3)) as [rest ->]; [lia|].
  simpl. do 2 apply wp_bind.
  eapply wp_mono.
  { unfold shape0. apply wp_conj.
    - apply epoch_body_run with (glayers := generator_layers (shape1 X'));
        [apply setup_world_ready|by eapply check_array_nonempty|done].
    - apply epoch_body_batches with (glayers := generator_layers (shape1 X'));
        [apply setup_world_ready|by eapply check_array_nonempty|done]. }
  intros o w1 [[-> _] Hchain]. simpl. by wp_steps.
Qed.

(** C7: in a call of [fit] on an array that [check_array] accepts, the
    discriminator is trained once per executed batch, in the order of the
    batches, and the batch it is trained on for batch [index] is the real
    batch -- the rows of window [index] of the validated array --
    followed by the generated batch -- what the generator, as it is when
    the batch starts, predicts on the noise drawn for the batch
    ([batches_from], from the world in which the first batch starts) --
    [batch_size] rows each, with the labels [[1] * batch_size + [0] *
    batch_size]: [2 * batch_size] rows and as many labels, [batch_size]
    of them 1 (real) and [batch_size] of them 0 (generated).  The
    executed batches are those of epoch 0 when [stop_epochs >= 1], none
    otherwise. *)
Theorem discriminator_batch_is_balanced X y w :
  match check_array X with
  | None => fit X y w = (Raise ValueError, w)
  | Some X' =>
      let latent_size := shape1 X' in
      let batch_size := min 500 (length X') in
      let num_batches := length X' / batch_size in
      let executed :=
        if decide (1 ≤ stop_epochs (self w))%Z then seq 0 num_batches else [] in
      let start :=
        {| self := self (setup_world X' y w);
           random := random (setup_world X' y w);
           trace := trace w ++ [Print_epoch 1 (stop_epochs (self w) * 3)] |} in
      ∃ r w' new,
        fit X y w = (Normal r, w') ∧
        trace w' = trace w ++ new ∧
        batches_executed new = (λ index, (0, index)) <$> executed ∧
        batches_from X' latent_size batch_size 0 initial_stop executed start
          (discriminator_batches new) ∧
        Forall2 (λ index (b : matrix * list Z),
          ∃ generated,
            let real := data_batch X' batch_size index in
            b.1 = real ++ generated ∧
            length real = batch_size ∧
            length generated = batch_size ∧
            b.2 = py_repeat 1 batch_size ++ py_repeat 0 batch_size ∧
            length b.1 = 2 * batch_size ∧
            length b.2 = 2 * batch_size ∧
            count_occ Z.eq_dec b.2 1%Z = batch_size ∧
            count_occ Z.eq_dec b.2 0%Z = batch_size)
          executed (discriminator_batches new)
  end.
Proof.
  destruct (fit_cases X y w)
    as [[HX Hfit]|[(X' & w' & HX & Hstop & Hfit & Htr & _)|
                   (X' & w' & HX & Hstop & Hfit & Hout)]];
    rewrite HX; [done| |]; simpl.
  - exists PyNone, w', []. rewrite decide_False by lia.
    split; [done|]. split; [by rewrite app_nil_r|]. split; [done|].
    split; constructor.
  - destruct (fit_outcome_training _ _ _ Hout)
      as (training & Htr & _ & Hbat & _ & _ & Hdis).
    destruct (fit_batches_from X y w X' HX Hstop)
      as (r1 & w1 & Hfit1 & training1 & Htr1 & Hchain).
    rewrite Hfit in Hfit1. injection Hfit1 as <- <-.
    rewrite Htr in Htr1. apply app_inv_head in Htr1.
    injection Htr1 as Htr1. apply app_inv_tail in Htr1. subst training1.
    eexists Self, w', _. rewrite decide_True by lia.
    split; [done|]. split; [exact Htr|].
    rewrite batches_executed_of_run, discriminator_batches_of_run.
    split; [done|]. split; [done|].
    eapply Forall2_impl; [apply Forall2_with_index, Hdis|].
    intros index b (Hi & noise & g & Hn & ->). simpl.
    exists (predict (generator_layers (shape1 X')) g noise).
    assert (length (data_batch X' (min 500 (length X')) index)
              = min 500 (length X')) as Hreal by by apply data_batch_length.
    assert (length (predict (generator_layers (shape1 X')) g noise)
              = min 500 (length X')) as Hgen by by rewrite predict_rows.
    rewrite !length_app, !count_occ_app, Hreal, Hgen.
    rewrite !count_occ_replicate_eq.
    rewrite !count_occ_replicate_ne by done.
    unfold py_repeat. rewrite !length_replicate.
    repeat split; try done; lia.
Qed.

End Properties.

(** * The statements, run on the small back end *)

(** C2: the run that breaks it.  With [stop_epochs = 0] and 1000 valid
    samples (twice the batch size of 500), [fit] returns [None] and
    leaves no [decision_scores_], where the docstring of [fit] promises
    [self] and that of the class promises the scores of the training data
    once the detector is fitted.  (With [stop_epochs >= 1] the scores are
    there, one per sample: [fit_scores_per_sample].) *)
Theorem fit_zero_stop_epochs_leaves_no_scores :
  let X := Toy.samples 1000 in
  let w := Toy.world_of (Toy.detector 0) in
  check_array X = Some X ∧
  2 * min 500 (length X) ≤ length X ∧
  ∃ w', fit X None w = (Normal PyNone, w') ∧
        decision_scores_ (self w') = None.
Proof.
  simpl. split; [by vm_compute|]. split; [vm_compute; lia|].
  destruct (fit_cases (Toy.samples 1000) None (Toy.world_of (Toy.detector 0)))
    as [[HX _]|[(X' & w' & _ & _ & Hfit & _ & Hsc & _)|(X' & w' & _ & Hstop & _)]].
  - by vm_compute in HX.
  - exists w'. by split.
  - simpl in Hstop. lia.
Qed.

Lemma fit_returns_in_first_epoch_witness :
  (1 ≤ stop_epochs (self (Toy.world_of (Toy.detector 20))))%Z ∧
  (fit (Toy.samples 3) None (Toy.world_of (Toy.detector 20))).1 = Normal Self.
Proof.
  assert (1 ≤ stop_epochs (self (Toy.world_of (Toy.detector 20))))%Z as Hstop
    by (simpl; lia).
  split; [exact Hstop|].
  pose proof (fit_returns_in_first_epoch (Toy.samples 3) None _ Hstop) as Hfit.
  simpl in Hfit. destruct Hfit as (w' & d & training & -> & _). reflexivity.
Defined.


Lemma fit_without_epochs_witness :
  (stop_epochs (self (Toy.world_of (Toy.detector 0))) ≤ 0)%Z ∧
  (fit (Toy.samples 3) None (Toy.world_of (Toy.detector 0))).1 = Normal PyNone.
Proof.
  assert (stop_epochs (self (Toy.world_of (Toy.detector 0))) ≤ 0)%Z as Hstop
    by (simpl; lia).
  split; [exact Hstop|].
  destruct (fit_without_epochs (Toy.samples 3) None _ Hstop)
    as (r & w' & -> & _ & _ & _ & _ & Hr).
  simpl. apply Hr. by eexists.
Defined.

Lemma decision_function_after_fit_witness :
  ∃ w' scores,
    fit (Toy.samples 3) None (Toy.world_of (Toy.detector 20)) = (Normal Self, w') ∧
    (decision_function (Toy.samples 3) w').1 = Normal scores ∧
    decision_scores_ (self w') = Some scores.
Proof.
  assert ((fit (Toy.samples 3) None (Toy.world_of (Toy.detector 20))).1
            = Normal Self) as Hr by (vm_compute; reflexivity).
  destruct (fit (Toy.samples 3) None (Toy.world_of (Toy.detector 20)))
    as [r w'] eqn:Hfit.
  simpl in Hr. subst r.
  destruct (decision_function_after_fit _ _ _ _ Hfit)
    as (scores & w'' & Hdf & Hsc & _).
  exists w', scores. rewrite Hdf. split; [reflexivity|]. split; [reflexivity|].
  exact Hsc.
Defined.

Lemma stop_flag_one_way_witness :
  let w := Toy.world_of (Toy.built_detector 1) in
  ready w ∧ Toy.samples 3 ≠ [] ∧
  (epoch_training (Toy.samples 3) 2 3 3 1 0 w).1 = Normal 1%Z ∧
  (epoch_training (Toy.samples 3) 2 3 3 0 1 w).1 = Normal 1%Z.
Proof.
  set (w := Toy.world_of (Toy.built_detector 1)).
  assert (ready w) as Hready by (repeat split; by eexists).
  assert (Toy.samples 3 ≠ []) as HX by done.
  split; [exact Hready|]. split; [exact HX|]. split.
  - destruct (stop_flag_one_way (Toy.samples 3) 2 3 1 0 w Hready HX)
      as (_ & stop' & w' & new & Hrun & _ & Hset & _).
    change (length (Toy.samples 3)) with 3 in Hrun. rewrite Hrun.
    simpl. f_equal. apply Hset. simpl. lia.
  - destruct (stop_flag_one_way (Toy.samples 3) 2 3 0 1 w Hready HX)
      as (_ & stop' & w' & new & Hrun & _ & _ & _ & Hkeep & _).
    change (length (Toy.samples 3)) with 3 in Hrun. rewrite Hrun.
    simpl. f_equal. by apply Hkeep.
Defined.

Lemma decision_function_scores_same_width_witness :
  check_array (Toy.samples 3) = Some (Toy.samples 3) ∧
  Forall (λ row, length row = shape1 (Toy.samples 3)) (Toy.samples 5) ∧
  ∃ w', fit (Toy.samples 3) None (Toy.world_of (Toy.detector 20))
          = (Normal Self, w') ∧
        ∃ scores, (decision_function (Toy.samples 5) w').1 = Normal scores ∧
                  length scores = 5.
Proof.
  assert (check_array (Toy.samples 3) = Some (Toy.samples 3)) as HX
    by reflexivity.
  assert (Forall (λ row, length row = shape1 (Toy.samples 3)) (Toy.samples 5))
    as Hwidth by (repeat constructor).
  split; [exact HX|]. split; [exact Hwidth|].
  assert ((fit (Toy.samples 3) None (Toy.world_of (Toy.detector 20))).1
            = Normal Self) as Hr by (vm_compute; reflexivity).
  destruct (fit (Toy.samples 3) None (Toy.world_of (Toy.detector 20)))
    as [r w'] eqn:Hfit.
  simpl in Hr. subst r. exists w'. split; [reflexivity|].
  pose proof (decision_function_scores_same_width
                _ _ _ _ _ _ (Toy.samples 5) Hfit HX) as Hdf.
  change (check_array (Toy.samples 5)) with (Some (Toy.samples 5)) in Hdf.
  destruct (Hdf Hwidth) as (scores & w'' & Hdf' & Hlen & _).
  rewrite Hdf'. exists scores. split; [reflexivity|].
  rewrite Hlen. reflexivity.
Defined.

Lemma fit_hidden_layer_width_witness :
  ∃ w' d hidden output,
    fit (Toy.samples 10) None (Toy.world_of (Toy.detector 0))
      = (Normal PyNone, w') ∧
    discriminator (self w') = Some d ∧
    model_layers d = [hidden; output] ∧ 1 ≤ units hidden ≤ 10.
Proof.
  assert ((fit (Toy.samples 10) None (Toy.world_of (Toy.detector 0))).1
            = Normal PyNone) as Hr by (vm_compute; reflexivity).
  destruct (fit (Toy.samples 10) None (Toy.world_of (Toy.detector 0)))
    as [r w'] eqn:Hfit.
  simpl in Hr. subst r.
  destruct (fit_hidden_layer_width _ _ _ _ _ Hfit)
    as (X' & d & hidden & output & HX & Hd & Hl & _ & Hu & _).
  change (check_array (Toy.samples 10)) with (Some (Toy.samples 10)) in HX.
  injection HX as HX. rewrite <- HX in Hu.
  exists w', d, hidden, output.
  split; [reflexivity|]. split; [exact Hd|]. split; [exact Hl|]. exact Hu.
Defined.

Lemma fit_call_sequence_witness :
  check_array (Toy.samples 3) = Some (Toy.samples 3) ∧
  (1 ≤ stop_epochs (self (Toy.world_of (Toy.detector 20))))%Z ∧
  ∃ w' (evs : list (list (@event Toy.backend))),
    fit (Toy.samples 3) None (Toy.world_of (Toy.detector 20))
      = (Normal Self, w') ∧
    length evs = 1.
Proof.
  assert (check_array (Toy.samples 3) = Some (Toy.samples 3)) as HX
    by reflexivity.
  assert (1 ≤ stop_epochs (self (Toy.world_of (Toy.detector 20))))%Z as Hstop
    by (simpl; lia).
  split; [exact HX|]. split; [exact Hstop|].
  destruct (fit_call_sequence _ None _ _ HX Hstop)
    as (w' & evs & Hfit & _ & Hevs).
  exists w', evs. split; [exact Hfit|].
  apply Forall2_length in Hevs. rewrite <- Hevs. reflexivity.
Defined.

Lemma fit_small_array_single_batch_witness :
  check_array (Toy.samples 3) = Some (Toy.samples 3) ∧
  (1 ≤ stop_epochs (self (Toy.world_of (Toy.detector 20))))%Z ∧
  length (Toy.samples 3) ≤ 500 ∧
  ∃ w', fit (Toy.samples 3) None (Toy.world_of (Toy.detector 20))
          = (Normal Self, w') ∧
        batches_executed (trace w') = [(0, 0)].
Proof.
  assert (check_array (Toy.samples 3) = Some (Toy.samples 3)) as HX
    by reflexivity.
  assert (1 ≤ stop_epochs (self (Toy.world_of (Toy.detector 20))))%Z as Hstop
    by (simpl; lia).
  assert (length (Toy.samples 3) ≤ 500) as Hsmall by (simpl; lia).
  split; [exact HX|]. split; [exact Hstop|]. split; [exact Hsmall|].
  destruct (fit_small_array_single_batch _ None _ _ HX Hstop Hsmall)
    as (w' & new & generated & Hfit & Htr & Hbat & _).
  exists w'. split; [exact Hfit|]. simpl in Htr. rewrite Htr. exact Hbat.
Defined.

Lemma fit_trains_on_most_rows_witness :
  check_array (Toy.samples 1200) = Some (Toy.samples 1200) ∧
  (1 ≤ stop_epochs (self (Toy.world_of (Toy.detector 20))))%Z ∧
  ∃ w', fit (Toy.samples 1200) None (Toy.world_of (Toy.detector 20))
          = (Normal Self, w') ∧
        length (batches_executed (trace w')) = 2.
Proof.
  assert (check_array (Toy.samples 1200) = Some (Toy.samples 1200)) as HX
    by (vm_compute; reflexivity).
  assert (1 ≤ stop_epochs (self (Toy.world_of (Toy.detector 20))))%Z as Hstop
    by (simpl; lia).
  split; [exact HX|]. split; [exact Hstop|].
  destruct (fit_trains_on_most_rows _ None _ _ HX Hstop)
    as (w' & new & Hfit & Htr & Hbat & _).
  exists w'. split; [exact Hfit|]. simpl in Htr. rewrite Htr, Hbat.
  vm_compute. reflexivity.
Defined.

Lemma fit_forgets_earlier_fit_witness :
  let w1 := Toy.world_of (Toy.detector 20) in
  let w2 := Toy.world_of (Toy.built_detector 20) in
  hyperparameters (self w1) = hyperparameters (self w2) ∧
  random w1 = random w2 ∧
  self (fit (Toy.samples 3) None w1).2 = self (fit (Toy.samples 3) None w2).2.
Proof.
  intros w1 w2.
  assert (hyperparameters (self w1) = hyperparameters (self w2)) as Hh
    by reflexivity.
  assert (random w1 = random w2) as Hr by reflexivity.
  split; [exact Hh|]. split; [exact Hr|].
  assert ((fit (Toy.samples 3) None w1).1 = Normal Self) as Hret
    by (vm_compute; reflexivity).
  destruct (fit_forgets_earlier_fit (Toy.samples 3) None w1 w2 Hh Hr)
    as (r & w1' & w2' & new & Hfit1 & Hfit2 & _ & _ & _ & _ & Hself).
  rewrite Hfit1 in Hret. rewrite Hfit1, Hfit2.
  exact (Hself Hret).
Defined.

Lemma fit_without_epochs_leaves_untrained_detector_witness :
  check_array (Toy.samples 3) = Some (Toy.samples 3) ∧
  (stop_epochs (self (Toy.world_of (Toy.detector 0))) ≤ 0)%Z ∧
  check_array (Toy.samples 5) = Some (Toy.samples 5) ∧
  Forall (λ row, length row = shape1 (Toy.samples 3)) (Toy.samples 5) ∧
  ∃ w' w'' scores,
    fit (Toy.samples 3) None (Toy.world_of (Toy.detector 0))
      = (Normal PyNone, w') ∧
    decision_function (Toy.samples 5) w' = (Normal scores, w'').
Proof.
  assert (check_array (Toy.samples 3) = Some (Toy.samples 3)) as HX
    by reflexivity.
  assert (stop_epochs (self (Toy.world_of (Toy.detector 0))) ≤ 0)%Z as Hstop
    by (simpl; lia).
  assert (check_array (Toy.samples 5) = Some (Toy.samples 5)) as HX2
    by reflexivity.
  assert (Forall (λ row, length row = shape1 (Toy.samples 3)) (Toy.samples 5))
    as Hwidth by (repeat constructor).
  split; [exact HX|]. split; [exact Hstop|]. split; [exact HX2|].
  split; [exact Hwidth|].
  destruct (fit_without_epochs_leaves_untrained_detector
              _ None _ _ _ _ HX Hstop HX2 Hwidth)
    as (w' & w'' & Hfit & _ & _ & _ & Hdf).
  eexists w', w'', _. split; [exact Hfit|exact Hdf].
Defined.

Lemma create_discriminator_layers_witness :
  (Z.of_nat 101 ≤ 2 ^ 52)%Z ∧
  ∃ model hidden output,
    (create_discriminator 2 101 (Toy.world_of (Toy.detector 20))).1
      = Normal model ∧
    model_layers model = [hidden; output] ∧ units hidden = 11.
Proof.
  assert (Z.of_nat 101 ≤ 2 ^ 52)%Z as Hn by (vm_compute; discriminate).
  split; [exact Hn|].
  destruct (create_discriminator_layers 2 101
              (Toy.world_of (Toy.detector 20)) Hn)
    as (model & w' & hidden & output & Hrun & Hl & Hd & _).
  exists model, hidden, output. rewrite Hrun.
  split; [reflexivity|]. split; [exact Hl|].
  change (math_ceil_sqrt_double (Z.of_nat 101)) with (Some 11%Z) in Hd.
  injection Hd as Hd. apply (Nat2Z.inj _ 11). symmetry. exact Hd.
Defined.

(** C3: the run that breaks it.  With [stop_epochs = 0], [fit(X)] on a
    new instance returns [None] and stores no [decision_scores_], and
    [decision_function(X)] right after it returns scores all the same:
    there are no stored scores for them to agree with, where the
    docstring of the class promises the scores of the training data once
    the detector is fitted.  (When [fit] returns [self] the two agree:
    [decision_function_after_fit].) *)
Theorem decision_function_without_stored_scores :
  let X := Toy.samples 3 in
  let w := Toy.world_of (Toy.detector 0) in
  check_array X = Some X ∧
  ∃ w' w'' scores,
    fit X None w = (Normal PyNone, w') ∧
    decision_function X w' = (Normal scores, w'') ∧
    length scores = 3 ∧
    decision_scores_ (self w') = None.
Proof.
  intros X w.
  assert (check_array X = Some X) as HX by reflexivity.
  split; [exact HX|].
  exists (setup_world X None w).
  assert (fit X None w = (Normal PyNone, setup_world X None w)) as Hfit.
  { rewrite (fit_from_setup X None w X HX), range_nonpos by (simpl; lia).
    reflexivity. }
  eexists _, _. split; [exact Hfit|].
  split; [exact (decision_function_run X X _ (setup_world X None w) eq_refl HX)|].
  split; [|reflexivity]. rewrite predict_rows. reflexivity.
Qed.

(** C8, as it was stated: an instance on which [fit] has not completed,
    and which [decision_function] scores without a [NotFittedError].  The
    instance is the one [fit] holds when it enters the epoch loop: the
    discriminator is assigned, no batch has run, no score is stored. *)
Lemma decision_function_during_fit :
  let X := Toy.samples 3 in
  let w := Toy.world_of (Toy.detector 20) in
  let entering := setup_world X None w in
  discriminator (self w) = None ∧
  fit X None w =
    (o ← for_in (range (stop_epochs (self w) * 3))
           (epoch_body X (shape1 X) (shape0 X) (stop_epochs (self w) * 3))
           initial_stop;
     match o with
     | Return v => mret v
     | Continue _ => mret PyNone
     end) entering ∧
  trace entering = [] ∧
  decision_scores_ (self entering) = None ∧
  (decision_function X entering).1 ≠ Raise NotFittedError.
Proof.
  intros X w entering.
  assert (check_array X = Some X) as HX by reflexivity.
  split; [reflexivity|]. split; [exact (fit_from_setup X None w X HX)|].
  split; [reflexivity|]. split; [reflexivity|].
  rewrite (decision_function_run X X _ entering eq_refl HX). discriminate.
Qed.
